(** * Text detection demo: geometry, region cap, filtering and emission

    A shallow embedding of [demos/text_detection_demo/main.cpp]: the helper
    functions [clip], [floatPointsFromRotatedRect], [topLeftPoint] and
    [cropImage], and the frame loop of [main] as a function producing a
    trace of output events and an exit status.

    Numbers.  A finite [float] (IEEE binary32) is an integer multiple of the
    smallest subnormal 2^-149, so a coordinate is embedded as the integer
    [v] with value [v * 2^-149]; the comparisons [<], [>], [==], [!=] of
    finite floats are then exactly those of [Z] (the two zeros are both 0).
    [int] values are embedded in [Z]; [double] confidences, which are only
    ever compared, are embedded in [Q]. *)

From Stdlib Require Import String Ascii DecimalString.
From Stdlib Require Import QArith Qabs ZArith Bool Lia.
From Stdlib Require Import List Permutation Sorted.
Import ListNotations.

Open Scope Z_scope.

(** ** Floats as multiples of 2^-149 *)

Definition FLT_UNIT : Z := 2 ^ 149.

(** [std::numeric_limits<float>::max()] = (2^24 - 1) * 2^104. *)
Definition FLT_MAX : Z := (2 ^ 24 - 1) * 2 ^ 104 * FLT_UNIT.

(** [static_cast<float>(n)] for an [int] n: exact below 2^24, otherwise
    rounded to 24 significant bits, ties to even. *)
Definition float_of_int (n : Z) : Z :=
  let a := Z.abs n in
  if a <? 2 ^ 24 then n * FLT_UNIT
  else
    let e := Z.log2 a - 23 in
    let q := a / 2 ^ e in
    let r := a mod 2 ^ e in
    let half := 2 ^ (e - 1) in
    let q' := if r <? half then q
              else if half <? r then q + 1
              else if Z.even q then q else q + 1 in
    Z.sgn n * q' * 2 ^ e * FLT_UNIT.

(** The range of [int]. *)
Definition INT_MIN : Z := - 2 ^ 31.
Definition INT_MAX : Z := 2 ^ 31 - 1.

Definition fits_int (z : Z) : bool := (INT_MIN <=? z) && (z <=? INT_MAX).

(** The value of a float truncated toward zero. *)
Definition trunc_float (v : Z) : Z := Z.quot v FLT_UNIT.

(** [static_cast<int>(v)] for a float v: the truncated value when it fits
    an [int]; the conversion is undefined otherwise. *)
Definition int_of_float (v : Z) : option Z :=
  if fits_int (trunc_float v) then Some (trunc_float v) else None.

(** ** Points *)

Record Point2f : Type := mkPoint2f { px : Z; py : Z }.

(** [cv::Point2f::operator==]: both coordinates equal. *)
Definition Point2f_eqb (p q : Point2f) : bool :=
  (px p =? px q) && (py p =? py q).

Definition pointf (a b : Z) : Point2f := mkPoint2f (float_of_int a) (float_of_int b).

(** ** topLeftPoint (main.cpp, lines 302-331) *)

Record tl_vars : Type := mk_tl_vars {
  most_left : Point2f;
  almost_most_left : Point2f;
  most_left_idx : Z;
  almost_most_left_idx : Z
}.

Definition tl_init : tl_vars :=
  mk_tl_vars (mkPoint2f FLT_MAX FLT_MAX) (mkPoint2f FLT_MAX FLT_MAX) (-1) (-1).

(** One iteration of the [for] loop, at index [i] with [p = points[i]]. *)
Definition tl_body (i : Z) (p : Point2f) (s : tl_vars) : tl_vars :=
  let s1 :=
    if px p <? px (most_left s) then
      let s0 :=
        if negb (px (most_left s) =? FLT_MAX) then
          mk_tl_vars (most_left s) (most_left s) (most_left_idx s) (most_left_idx s)
        else s in
      mk_tl_vars p (almost_most_left s0) i (almost_most_left_idx s0)
    else s in
  if (px p <? px (almost_most_left s1)) && negb (Point2f_eqb p (most_left s1)) then
    mk_tl_vars (most_left s1) p (most_left_idx s1) i
  else s1.

Fixpoint tl_loop (i : Z) (points : list Point2f) (s : tl_vars) : tl_vars :=
  match points with
  | [] => s
  | p :: rest => tl_loop (i + 1) rest (tl_body i p s)
  end.

(** The selected point [most_left] and the index written to [*idx].  The
    C++ function returns [most_left] converted to an integer [cv::Point];
    that conversion is a function of the selected point alone, and [main]
    uses only [*idx]. *)
Definition topLeftPoint (points : list Point2f) : Point2f * Z :=
  let s := tl_loop 0 points tl_init in
  if py (almost_most_left s) <? py (most_left s) then
    (almost_most_left s, almost_most_left_idx s)
  else
    (most_left s, most_left_idx s).

(** ** Specification vocabulary for the scan of [topLeftPoint] *)

Definition origin : Point2f := mkPoint2f 0 0.

Definition pt_at (points : list Point2f) (i : nat) : Point2f := nth i points origin.

(** Both coordinates strictly below the float maximum. *)
Definition below_max (p : Point2f) : Prop := px p < FLT_MAX /\ py p < FLT_MAX.

(** [i] is the first index holding a point of smallest x. *)
Definition leftmost (points : list Point2f) (i : nat) : Prop :=
  (i < length points)%nat /\
  (forall q, In q points -> px (pt_at points i) <= px q) /\
  (forall j, (j < i)%nat -> px (pt_at points i) < px (pt_at points j)).

(** [k] is the first index holding a point of smallest x among the points
    that differ from the leftmost one, [points[i]]. *)
Definition runner_up (points : list Point2f) (i k : nat) : Prop :=
  (k < length points)%nat /\
  pt_at points k <> pt_at points i /\
  (forall q, In q points -> q <> pt_at points i -> px (pt_at points k) <= px q) /\
  (forall j, (j < k)%nat -> pt_at points j <> pt_at points i ->
             px (pt_at points k) < px (pt_at points j)).

(** What the loop variables hold after scanning a non-empty prefix. *)
Definition tl_inv (pre : list Point2f) (s : tl_vars) : Prop :=
  exists i,
    leftmost pre i /\
    most_left s = pt_at pre i /\
    most_left_idx s = Z.of_nat i /\
    ((almost_most_left s = mkPoint2f FLT_MAX FLT_MAX /\
      almost_most_left_idx s = -1 /\
      forall q, In q pre -> q = pt_at pre i)
     \/
     (exists k,
        runner_up pre i k /\
        almost_most_left s = pt_at pre k /\
        almost_most_left_idx s = Z.of_nat k)).

(** ** Integers, strings and the other OpenCV value types *)

(** [static_cast<int>] of a [size_t]: reduction to 32 bits, two's complement. *)
Definition static_cast_int (n : Z) : Z := (n + 2 ^ 31) mod 2 ^ 32 - 2 ^ 31.

(** [clip] (main.cpp, lines 60-62). *)
Definition clip (x max_val : Z) : Z := Z.min (Z.max x 0) max_val.

(** [std::ostream << int]: the decimal numeral. *)
Definition string_of_Z (z : Z) : string := NilZero.string_of_int (Z.to_int z).

Definition endl : string := String (ascii_of_nat 10) EmptyString.

Definition string_empty (s : string) : bool :=
  match s with EmptyString => true | String _ _ => false end.

(** [s.find(c) != s.npos]. *)
Fixpoint string_contains (c : ascii) (s : string) : bool :=
  match s with
  | EmptyString => false
  | String a rest => Ascii.eqb a c || string_contains c rest
  end.

(** [std::vector::operator[]] with an [int] index: no value outside the
    bounds (the access is undefined there). *)
Definition vec_at {A : Type} (v : list A) (i : Z) : option A :=
  if i <? 0 then None else nth_error v (Z.to_nat i).

Record Size2f : Type := mkSize2f { width_f : Z; height_f : Z }.
Record Size : Type := mkSize { width : Z; height : Z }.
Record Rect : Type := mkRect { rect_x : Z; rect_y : Z; rect_width : Z; rect_height : Z }.

(** [cv::Size2f::operator==]. *)
Definition Size2f_eqb (a b : Size2f) : bool :=
  (width_f a =? width_f b) && (height_f a =? height_f b).

Record RotatedRect : Type := mkRotatedRect {
  center : Point2f;
  size : Size2f;
  angle : Z
}.

(** [cv::Mat]: dimensions and pixel bytes. *)
Record Mat : Type := mkMat { cols : Z; rows : Z; data : list Z }.

(** [cv::Mat::empty()]: no elements. *)
Definition Mat_empty (m : Mat) : bool := rows m * cols m =? 0.

Definition Mat_size (m : Mat) : Size := mkSize (cols m) (rows m).

(** The assertion of [cv::Mat]'s region-of-interest constructor, which
    [image(r)] calls: the rectangle lies inside the matrix. *)
Definition roi_inside (m : Mat) (roi : Rect) : bool :=
  (0 <=? rect_x roi) && (0 <=? rect_width roi) &&
  (rect_x roi + rect_width roi <=? cols m) &&
  (0 <=? rect_y roi) && (0 <=? rect_height roi) &&
  (rect_y roi + rect_height roi <=? rows m).

(** The first output blob of the recognizer, [blobs.begin()->second]: its
    dimensions ([getTensorDesc().getDims()]) and its float buffer.  [Infer]
    of the recognizer is taken to return this blob. *)
Record Blob : Type := mkBlob { getDims : list Z; buffer : list Z }.

(** ** External collaborators

    OpenCV, the inference engine, and the parts of the demo that live in
    other translation units ([text_detection.cpp], [text_recognition.cpp],
    [cnn.cpp], [image_grabber.cpp]) are taken as an interface. *)

Record Collaborators : Type := mkCollaborators {
  (** the 2x3 matrix type and [cv::getAffineTransform], [cv::warpAffine] *)
  Affine : Type;
  getAffineTransform : list Point2f -> list Point2f -> Affine;
  warpAffine : Mat -> Affine -> Size -> Mat;
  (** [image(r).clone()] for a rectangle inside the image, and the message
      of the [cv::Exception] that [image(r)] throws for any other *)
  Mat_roi : Mat -> Rect -> Mat;
  roi_error : string;
  (** [cv::RotatedRect::points]: the four vertices *)
  RotatedRect_points : RotatedRect -> Point2f * Point2f * Point2f * Point2f;
  (** [cv::Size2f::area()]: the float product width * height *)
  area : Size2f -> Z;
  (** [std::sort] with a comparator *)
  std_sort : (RotatedRect -> RotatedRect -> bool) -> list RotatedRect -> list RotatedRect;
  (** the output blobs of the detector and [postProcess] (text_detection.hpp) *)
  BlobMap : Type;
  postProcess : BlobMap -> Size -> Q -> Q -> list RotatedRect;
  (** [CTCGreedyDecoder] (text_recognition.hpp): decoded string and [*conf] *)
  CTCGreedyDecoder : list Z -> string -> ascii -> string * Q;
  (** loading a network from a model path: input size and inference *)
  load_detector : string -> Size -> Size * (Mat -> BlobMap);
  load_recognizer : string -> Size * (Mat -> Blob)
}.

(** Modelled from the spec: the class [Cnn] (cnn.hpp) is not among the
    sources.  A network "may be absent" (spec, section 6): a default
    constructed [Cnn] reports [is_initialized() == false], and one on which
    [Init] has been called reports [true]. *)
Record Cnn (Out : Type) : Type := mkCnn {
  is_initialized : bool;
  input_size : Size;
  Infer : Mat -> Out
}.
Arguments mkCnn {Out}.
Arguments is_initialized {Out}.
Arguments input_size {Out}.
Arguments Infer {Out}.

Definition Cnn_default {Out : Type} (dflt : Out) : Cnn Out :=
  mkCnn false (mkSize 0 0) (fun _ => dflt).

Definition Cnn_Init {Out : Type} (net : Size * (Mat -> Out)) : Cnn Out :=
  mkCnn true (fst net) (snd net).

(** ** Command line flags read by [main] *)

Record Flags : Type := mkFlags {
  FLAGS_h : bool;
  FLAGS_i : string;
  FLAGS_m_td : string;
  FLAGS_m_tr : string;
  FLAGS_m_tr_ss : string;
  FLAGS_thr : Q;
  FLAGS_cls_pixel_thr : Q;
  FLAGS_link_pixel_thr : Q;
  FLAGS_max_rect_num : Z;
  FLAGS_w_td : Z;
  FLAGS_h_td : Z;
  FLAGS_cc : bool;
  FLAGS_r : bool;
  FLAGS_no_show : bool
}.

(** ** Output events, exceptions, and the monad threading them *)

Inductive exn : Type :=
| logic_error (what : string)
| invalid_argument (what : string)
| runtime_error (what : string)
| cv_Exception (what : string).

Definition exn_what (e : exn) : string :=
  match e with
  | logic_error w | invalid_argument w | runtime_error w | cv_Exception w => w
  end.

(** What is drawn on [demo_image] before it is shown: the window of the
    centre crop, the outline of a region, and the label placed by
    [setLabel] at the anchor corner. *)
Inductive Annotation : Type :=
| DrawRect (r : Rect)
| DrawLine (a b : Point2f)
| DrawLabel (label : string) (p : Point2f).

Inductive Event : Type :=
| Usage
| RawLine (line : string)
| ShowFrame (annotations : list Annotation) (num_found : Z).

Inductive Result (A : Type) : Type :=
| Val (a : A)
| Throw (e : exn)
| Undefined.
Arguments Val {A}.
Arguments Throw {A}.
Arguments Undefined {A}.

Definition M (A : Type) : Type := (list Event * Result A)%type.

Definition ret {A : Type} (a : A) : M A := ([], Val a).
Definition emit (evs : list Event) : M unit := (evs, Val tt).
Definition throw {A : Type} (e : exn) : M A := ([], Throw e).
Definition undefined {A : Type} : M A := ([], Undefined).

Definition bind {A B : Type} (m : M A) (k : A -> M B) : M B :=
  match snd m with
  | Val a => (fst m ++ fst (k a), snd (k a))
  | Throw e => (fst m, Throw e)
  | Undefined => (fst m, Undefined)
  end.

Notation "x <- c ;; k" := (bind c (fun x => k))
  (at level 61, c at next level, right associativity).
Notation "' pat <- c ;; k" := (bind c (fun x => match x with pat => k end))
  (at level 61, pat pattern, c at next level, right associativity).

(** ** The geometry helpers of main.cpp that call OpenCV *)

Section Pipeline.

Context (E : Collaborators).

(** [floatPointsFromRotatedRect] (lines 291-300). *)
Definition floatPointsFromRotatedRect (rect : RotatedRect) : list Point2f :=
  let '(v0, v1, v2, v3) := RotatedRect_points E rect in
  map (fun v => mkPoint2f (px v) (py v)) [v0; v1; v2; v3].

(** [cropImage] (lines 333-349); [None] when an index is out of bounds. *)
Definition cropImage (image : Mat) (points : list Point2f) (target_size : Size)
    (top_left_point_idx : Z) : option Mat :=
  match vec_at points top_left_point_idx,
        vec_at points (Z.rem (top_left_point_idx + 1) 4),
        vec_at points (Z.rem (top_left_point_idx + 2) 4) with
  | Some point0, Some point1, Some point2 =>
      let from := [point0; point1; point2] in
      let to := [mkPoint2f 0 0;
                 mkPoint2f (float_of_int (width target_size - 1)) 0;
                 mkPoint2f (float_of_int (width target_size - 1))
                           (float_of_int (height target_size - 1))] in
      let M := getAffineTransform E from to in
      Some (warpAffine E image M target_size)
  | _, _, _ => None
  end.

(** ** The frame loop of [main] *)

Definition kPadSymbol : ascii := "#"%char.

(** Lines 139-148: the detector's rectangles, or the single zero rectangle.
    The two thresholds are handed over as read from the flags; their
    conversion to [float] is left to [postProcess]. *)
Definition detect_rects (fl : Flags) (text_detection : Cnn (BlobMap E)) (image : Mat)
    : list RotatedRect :=
  if is_initialized text_detection then
    postProcess E (Infer text_detection image) (Mat_size image)
                (FLAGS_cls_pixel_thr fl) (FLAGS_link_pixel_thr fl)
  else
    [mkRotatedRect (mkPoint2f 0 0) (mkSize2f 0 0) 0].

(** The comparator of line 152: [a.size.area() > b.size.area()]. *)
Definition area_gt (a b : RotatedRect) : bool := area E (size b) <? area E (size a).

(** Lines 150-155: the cap on the number of rectangles. *)
Definition cap_rects (max_rect_num : Z) (rects : list RotatedRect) : list RotatedRect :=
  if (0 <=? max_rect_num) && (max_rect_num <? static_cast_int (Z.of_nat (length rects))) then
    firstn (Z.to_nat max_rect_num) (std_sort E area_gt rects)
  else rects.

(** The window of the fixed centre crop (lines 173-177).  The products by
    the double constants 0.05 and 0.5 are truncated to [int]; for the
    non-negative sizes of an image the first is the quotient by 20. *)
Definition center_rect (image : Mat) : Rect :=
  let w := Z.quot (cols image) 20 in
  let h := Z.quot w 2 in
  let tl_x := Z.quot (cols image - w) 2 in
  let tl_y := Z.quot (rows image - h) 2 in
  mkRect tl_x tl_y w h.

(** Lines 160-184: the crop handed to the recognizer, the points of the
    region, the index of its anchor, and what is drawn meanwhile.  In the
    centre-crop branch [image(r)] throws when the window is not inside the
    image. *)
Definition crop_stage (fl : Flags) (text_detection : Cnn (BlobMap E))
    (text_recognition : Cnn Blob) (image : Mat) (rect : RotatedRect)
    : M (Mat * list Point2f * Z * list Annotation) :=
  if negb (Size2f_eqb (size rect) (mkSize2f 0 0)) && is_initialized text_detection then
    let points := floatPointsFromRotatedRect rect in
    let top_left_point_idx := snd (topLeftPoint points) in
    match cropImage image points (input_size text_recognition) top_left_point_idx with
    | Some cropped_text => ret (cropped_text, points, top_left_point_idx, [])
    | None => undefined
    end
  else if FLAGS_cc fl then
    let r := center_rect image in
    if roi_inside image r then
      ret (Mat_roi E image r,
           [mkPoint2f (float_of_int (rect_x r)) (float_of_int (rect_y r))],
           0, [DrawRect r])
    else throw (cv_Exception (roi_error E))
  else
    ret (image, [], 0, []).

(** Lines 186-204: recognition, the width check, decoding and the
    confidence threshold.  Returns [res], [conf] and the new [num_found].
    [output_data] is read from the blob's buffer, which holds at least
    [output_shape[0] * output_shape[2]] values. *)
Definition recognition_stage (fl : Flags) (text_recognition : Cnn Blob)
    (kAlphabet : string) (cropped_text : Mat) (num_found : Z) : M (string * Q * Z) :=
  let res := EmptyString in
  let conf := 1%Q in
  if is_initialized text_recognition then
    let blob := Infer text_recognition cropped_text in
    let output_shape := getDims blob in
    match vec_at output_shape 2 with
    | None => undefined
    | Some shape2 =>
        if negb (shape2 =? Z.of_nat (String.length kAlphabet)) then
          throw (runtime_error "The text recognition model does not correspond to alphabet.")
        else
          match vec_at output_shape 0 with
          | None => undefined
          | Some shape0 =>
              let output_data := firstn (Z.to_nat (shape0 * shape2)) (buffer blob) in
              let '(res, conf) := CTCGreedyDecoder E output_data kAlphabet kPadSymbol in
              let res := if Qle_bool (FLAGS_thr fl) conf then res else EmptyString in
              ret (res, conf, num_found + (if negb (string_empty res) then 1 else 0))
          end
    end
  else
    ret (res, conf, num_found).

(** Lines 207-212: the clamped integer coordinates, comma separated; no
    value when a coordinate does not convert to [int]. *)
Fixpoint raw_coords (image : Mat) (points : list Point2f) : option string :=
  match points with
  | [] => Some EmptyString
  | p :: rest =>
      match int_of_float (px p), int_of_float (py p), raw_coords image rest with
      | Some x, Some y, Some coords =>
          Some (string_of_Z (clip x (cols image - 1)) ++ "," ++
                string_of_Z (clip y (rows image - 1)) ++
                (match rest with [] => EmptyString | _ :: _ => "," end) ++
                coords)%string
      | _, _, _ => None
      end
  end.

(** Lines 207-218: the line written for one region under [-r]. *)
Definition raw_line (text_recognition : Cnn Blob) (image : Mat)
    (points : list Point2f) (res : string) : option string :=
  match raw_coords image points with
  | Some coords =>
      Some (coords ++
            (if is_initialized text_recognition then "," ++ res else EmptyString) ++
            endl)%string
  | None => None
  end.

(** Lines 222-224: the outline of the region. *)
Definition outline (points : list Point2f) : list Annotation :=
  map (fun i => DrawLine (nth i points origin)
                         (nth ((i + 1) mod length points) points origin))
      (seq 0 (length points)).

(** Lines 221-229: what is drawn on the demo image for one region. *)
Definition annotate_stage (fl : Flags) (text_recognition : Cnn Blob)
    (points : list Point2f) (top_left_point_idx : Z) (res : string)
    : M (list Annotation) :=
  if negb (FLAGS_no_show fl) &&
     (negb (string_empty res) || negb (is_initialized text_recognition)) then
    if negb (match points with [] => true | _ :: _ => false end) &&
       negb (string_empty res) then
      match vec_at points top_left_point_idx with
      | Some p => ret (outline points ++ [DrawLabel res p])
      | None => undefined
      end
    else ret (outline points)
  else ret [].

(** The body of the loop over [rects] (lines 159-230), on the annotations
    drawn so far and [num_found]. *)
Definition process_rect (fl : Flags) (text_detection : Cnn (BlobMap E))
    (text_recognition : Cnn Blob) (kAlphabet : string) (image : Mat)
    (rect : RotatedRect) (st : list Annotation * Z) : M (list Annotation * Z) :=
  '(cropped_text, points, top_left_point_idx, drawn) <-
     crop_stage fl text_detection text_recognition image rect ;;
  '(res, conf, num_found) <-
     recognition_stage fl text_recognition kAlphabet cropped_text (snd st) ;;
  _ <- (if FLAGS_r fl then
          match raw_line text_recognition image points res with
          | Some line => emit [RawLine line]
          | None => undefined
          end
        else emit []) ;;
  more <- annotate_stage fl text_recognition points top_left_point_idx res ;;
  ret (fst st ++ drawn ++ more, num_found).

Fixpoint process_rects (fl : Flags) (text_detection : Cnn (BlobMap E))
    (text_recognition : Cnn Blob) (kAlphabet : string) (image : Mat)
    (rects : list RotatedRect) (st : list Annotation * Z) : M (list Annotation * Z) :=
  match rects with
  | [] => ret st
  | rect :: rest =>
      st' <- process_rect fl text_detection text_recognition kAlphabet image rect st ;;
      process_rects fl text_detection text_recognition kAlphabet image rest st'
  end.

(** The rectangles a frame is processed with (lines 139-155). *)
Definition frame_rects (fl : Flags) (text_detection : Cnn (BlobMap E)) (image : Mat)
    : list RotatedRect :=
  cap_rects (FLAGS_max_rect_num fl) (detect_rects fl text_detection image).

(** Lines 135-230: one frame, up to the end of the loop over its regions. *)
Definition process_frame (fl : Flags) (text_detection : Cnn (BlobMap E))
    (text_recognition : Cnn Blob) (kAlphabet : string) (image : Mat)
    : M (list Annotation * Z) :=
  let rects := frame_rects fl text_detection image in
  let num_found :=
    if is_initialized text_recognition then 0
    else static_cast_int (Z.of_nat (length rects)) in
  process_rects fl text_detection text_recognition kAlphabet image rects ([], num_found).

(** A grabbed image together with the key code [cv::waitKey(3)] returns
    when the frame is shown. *)
Record Frame : Type := mkFrame { frame_image : Mat; frame_key : Z }.

(** [char k = cv::waitKey(3); k == 27]. *)
Definition key_is_esc (key : Z) : bool := Z.land key 255 =? 27.

(** Lines 131-252: the loop over the grabbed images.  The end of the list
    stands for the empty image of an exhausted source.  The frame rate
    shown with [num_found] depends on the clock and is left out. *)
Fixpoint frame_loop (fl : Flags) (text_detection : Cnn (BlobMap E))
    (text_recognition : Cnn Blob) (kAlphabet : string) (frames : list Frame) : M unit :=
  match frames with
  | [] => ret tt
  | f :: rest =>
      if Mat_empty (frame_image f) then ret tt
      else
        st <- process_frame fl text_detection text_recognition kAlphabet (frame_image f) ;;
        if negb (FLAGS_no_show fl) then
          _ <- emit [ShowFrame (fst st) (snd st)] ;;
          if key_is_esc (frame_key f) then ret tt
          else frame_loop fl text_detection text_recognition kAlphabet rest
        else frame_loop fl text_detection text_recognition kAlphabet rest
  end.

(** [ParseAndCheckCommandLine] (lines 41-58): [false] after the usage text. *)
Definition ParseAndCheckCommandLine (fl : Flags) : M bool :=
  if FLAGS_h fl then
    _ <- emit [Usage] ;; ret false
  else if string_empty (FLAGS_i fl) then
    throw (logic_error "Parameter -i is not set")
  else if string_empty (FLAGS_m_td fl) && string_empty (FLAGS_m_tr fl) then
    throw (logic_error "Neither parameter -m_td nor -m_tr is not set")
  else ret true.

(** Lines 80-84: the alphabet with the pad symbol appended. *)
Definition make_alphabet (fl : Flags) : M string :=
  if string_contains kPadSymbol (FLAGS_m_tr_ss fl) then
    throw (invalid_argument
      "Symbols set for Text Recongition model must not contain reserved symbol '#'")
  else ret (FLAGS_m_tr_ss fl ++ String kPadSymbol EmptyString)%string.

(** Lines 121-127. *)
Definition init_detector (fl : Flags) (dflt : BlobMap E) : Cnn (BlobMap E) :=
  if negb (string_empty (FLAGS_m_td fl)) then
    Cnn_Init (load_detector E (FLAGS_m_td fl) (mkSize (FLAGS_w_td fl) (FLAGS_h_td fl)))
  else Cnn_default dflt.

Definition init_recognizer (fl : Flags) : Cnn Blob :=
  if negb (string_empty (FLAGS_m_tr fl)) then Cnn_Init (load_recognizer E (FLAGS_m_tr fl))
  else Cnn_default (mkBlob [] []).

(** How [main] ends, as far as it is modelled: the report of the timing
    counters after the loop (lines 254-281) depends on the clock. *)
Inductive Outcome : Type :=
| ReturnedAfterUsage
| ReachedStatistics
| ExitFailure (what : string)
| UndefinedBehaviour.

(** [main] (lines 64-289) up to the end of the frame loop; an exception is
    caught at line 284, its message written to [cerr], and [EXIT_FAILURE]
    returned.  Loading the plugins and the networks and creating the
    grabber (lines 88-129) is the collaborators' work and is taken to
    succeed. *)
Definition main_body (fl : Flags) (dflt : BlobMap E) (frames : list Frame) : M bool :=
  go <- ParseAndCheckCommandLine fl ;;
  if negb go then ret false
  else
    kAlphabet <- make_alphabet fl ;;
    _ <- frame_loop fl (init_detector fl dflt) (init_recognizer fl) kAlphabet frames ;;
    ret true.

Definition main (fl : Flags) (dflt : BlobMap E) (frames : list Frame)
    : list Event * Outcome :=
  let r := main_body fl dflt frames in
  (fst r,
   match snd r with
   | Val true => ReachedStatistics
   | Val false => ReturnedAfterUsage
   | Throw e => ExitFailure (exn_what e)
   | Undefined => UndefinedBehaviour
   end).

End Pipeline.

(** ** Vocabulary of the properties *)

(** Cyclic rotation of a list by [k] places. *)
Definition rotate {A : Type} (k : nat) (l : list A) : list A := skipn k l ++ firstn k l.

(** Any two x-coordinates of the list are at least [gap] apart. *)
Fixpoint x_apart (gap : Z) (points : list Point2f) : Prop :=
  match points with
  | [] => True
  | p :: rest => Forall (fun q => gap <= Z.abs (px p - px q)) rest /\ x_apart gap rest
  end.

(** [m] and [a] are two different points and every other point of the list
    lies strictly to the right of both. *)
Definition left_pair (points : list Point2f) (m a : Point2f) : bool :=
  negb (Point2f_eqb m a) &&
  forallb (fun q => Point2f_eqb q m || Point2f_eqb q a ||
                    ((px m <? px q) && (px a <? px q))) points.

(** The list has two different points strictly to the left of all others. *)
Definition two_leftmost_apart (points : list Point2f) : bool :=
  existsb (fun m => existsb (fun a => left_pair points m a) points) points.

(** Of the pair [m], [a] of leftmost points: the upper one (smaller y); at
    equal height the one further left. *)
Definition upper_of (m a : Point2f) : Point2f :=
  if px m <? px a then (if py a <? py m then a else m)
  else if px a <? px m then (if py m <? py a then m else a)
  else (if py a <? py m then a else m).

(** Every coordinate of the points, truncated, fits an [int]. *)
Definition coords_fit_int (points : list Point2f) : bool :=
  forallb (fun p => fits_int (trunc_float (px p)) && fits_int (trunc_float (py p)))
          points.

(** The emission format in the words of the specification: the clamped
    integer coordinates of all points, in order. *)
Definition clamped_coords (W H : Z) (points : list Point2f) : list Z :=
  flat_map (fun p => [Z.min (Z.max (trunc_float (px p)) 0) (W - 1);
                      Z.min (Z.max (trunc_float (py p)) 0) (H - 1)]) points.

Definition spec_line (recognition : bool) (W H : Z) (points : list Point2f)
    (res : string) : string :=
  (String.concat "," (map string_of_Z (clamped_coords W H points)) ++
   (if recognition then "," ++ res else EmptyString) ++ endl)%string.


(** The message of the exception thrown at line 192. *)
Definition mismatch_message : string :=
  "The text recognition model does not correspond to alphabet.".

(** The postcondition of [std::sort] for the comparator of line 152: the
    result is a permutation of the input and no element is ordered before
    an earlier one. *)
Definition sort_contract (E : Collaborators) : Prop :=
  forall l,
    Permutation l (std_sort E (area_gt E) l) /\
    StronglySorted (fun a b => area_gt E b a = false) (std_sort E (area_gt E) l).

(** ** A concrete set of collaborators, to run the model on *)

Fixpoint insert_by (cmp : RotatedRect -> RotatedRect -> bool) (x : RotatedRect)
    (l : list RotatedRect) : list RotatedRect :=
  match l with
  | [] => [x]
  | y :: rest => if cmp x y then x :: l else y :: insert_by cmp x rest
  end.

Definition insertion_sort (cmp : RotatedRect -> RotatedRect -> bool)
    (l : list RotatedRect) : list RotatedRect :=
  fold_right (insert_by cmp) [] l.

(** The vertices of an upright rectangle, in OpenCV's order: bottom left,
    top left, top right, bottom right. *)
Definition upright_points (r : RotatedRect) : Point2f * Point2f * Point2f * Point2f :=
  let cx := px (center r) in
  let cy := py (center r) in
  let hw := width_f (size r) / 2 in
  let hh := height_f (size r) / 2 in
  (mkPoint2f (cx - hw) (cy + hh), mkPoint2f (cx - hw) (cy - hh),
   mkPoint2f (cx + hw) (cy - hh), mkPoint2f (cx + hw) (cy + hh)).

Definition upright (cx cy w h : Z) : RotatedRect :=
  mkRotatedRect (pointf cx cy) (mkSize2f (float_of_int w) (float_of_int h)) 0.

(** A detector that finds one word in every image that has pixel data and
    nothing in a blank one, and a recognizer with 37 output classes. *)
Definition demo : Collaborators := {|
  Affine := (list Point2f * list Point2f)%type;
  getAffineTransform := fun from to => (from, to);
  warpAffine := fun _ _ sz => mkMat (width sz) (height sz) [];
  Mat_roi := fun _ r => mkMat (rect_width r) (rect_height r) [];
  roi_error := "(-215:Assertion failed) 0 <= roi.x && 0 <= roi.width && roi.x + roi.width <= m.cols && 0 <= roi.y && 0 <= roi.height && roi.y + roi.height <= m.rows in function 'Mat'";
  RotatedRect_points := upright_points;
  area := fun s => width_f s * height_f s / FLT_UNIT;
  std_sort := insertion_sort;
  BlobMap := list RotatedRect;
  postProcess := fun blobs _ _ _ => blobs;
  CTCGreedyDecoder := fun _ _ _ => ("AB"%string, (1 # 2)%Q);
  load_detector := fun _ sz =>
    (sz, fun image => match data image with
                      | [] => []
                      | _ :: _ => [upright 40 30 20 10]
                      end);
  load_recognizer := fun _ => (mkSize 120 32, fun _ => mkBlob [30; 1; 37] [])
|}.

Definition demo_flags (symbols : string) : Flags := {|
  FLAGS_h := false;
  FLAGS_i := "video.mp4";
  FLAGS_m_td := "text-detection.xml";
  FLAGS_m_tr := "text-recognition.xml";
  FLAGS_m_tr_ss := symbols;
  FLAGS_thr := (1 # 5)%Q;
  FLAGS_cls_pixel_thr := (4 # 5)%Q;
  FLAGS_link_pixel_thr := (4 # 5)%Q;
  FLAGS_max_rect_num := -1;
  FLAGS_w_td := 1280;
  FLAGS_h_td := 768;
  FLAGS_cc := false;
  FLAGS_r := true;
  FLAGS_no_show := false
|}.

Definition symbols36 : string := "0123456789abcdefghijklmnopqrstuvwxyz".

Definition blank_frame : Frame := mkFrame (mkMat 64 48 []) (-1).
Definition text_frame : Frame := mkFrame (mkMat 64 48 [255]) (-1).

(** ** setLabel (main.cpp, lines 351-364) *)

(** [cv::Point]: integer coordinates. *)
Record Point : Type := mkPoint { pt_x : Z; pt_y : Z }.

(** [cv::Point::operator+]; the sums are those of the integers, as long as
    they fit an [int]. *)
Definition Point_add (a b : Point) : Point :=
  mkPoint (pt_x a + pt_x b) (pt_y a + pt_y b).

(** What [setLabel] draws on the image: a filled rectangle between two
    corners, then the text at its origin. *)
Inductive LabelDrawing : Type :=
| FilledRectangle (pt1 pt2 : Point)
| PutText (label : string) (org : Point).

(** [setLabel]; [getTextSize] stands for [cv::getTextSize] at the fixed
    font, scale and thickness and returns the size of the text and the
    baseline written through the last argument. *)
Definition setLabel (getTextSize : string -> Size * Z) (label : string) (p : Point)
    : list LabelDrawing :=
  let '(text_size, baseline) := getTextSize label in
  let text_position := mkPoint (Z.max 0 (pt_x p)) (Z.max (height text_size) (pt_y p)) in
  [FilledRectangle (Point_add text_position (mkPoint 0 baseline))
                   (Point_add text_position
                              (mkPoint (width text_size) (- height text_size)));
   PutText label text_position].

(** ** The report after the frame loop (main.cpp, lines 254-281) *)

(** The lines of the report; the figures they carry are quotients of the
    clock counters and are left out. *)
Inductive StatLine : Type :=
| StatDetectionInference
| StatDetectionPostprocessing
| StatRecognitionInference
| StatRecognitionPostprocessing
| StatTextCrop.

(** [std::numeric_limits<double>::epsilon()] = 2^-52. *)
Definition DBL_EPSILON : Q := 1 # 4503599627370496.

(** [std::fabs(t) < std::numeric_limits<double>::epsilon()]. *)
Definition near_zero (t : Q) : bool := negb (Qle_bool DBL_EPSILON (Qabs t)).

(** Lines 254-281, on the numbers of inference calls of the two networks
    and the three accumulated times of [main]. *)
Definition report_statistics (fl : Flags) (td_ncalls tr_ncalls : Z)
    (text_detection_postproc_time text_recognition_postproc_time text_crop_time : Q)
    : list StatLine * Result unit :=
  let detection :=
    if negb (td_ncalls =? 0) && negb (FLAGS_r fl) then
      if near_zero text_detection_postproc_time then
        ([StatDetectionInference],
         Throw (logic_error "text_detection_postproc_time can't be equal to zero"))
      else ([StatDetectionInference; StatDetectionPostprocessing], Val tt)
    else ([], Val tt) in
  match snd detection with
  | Val _ =>
      if negb (tr_ncalls =? 0) && negb (FLAGS_r fl) then
        if near_zero text_recognition_postproc_time then
          (fst detection ++ [StatRecognitionInference],
           Throw (logic_error "text_recognition_postproc_time can't be equal to zero"))
        else if near_zero text_crop_time then
          (fst detection ++ [StatRecognitionInference; StatRecognitionPostprocessing],
           Throw (logic_error "text_crop_time can't be equal to zero"))
        else
          (fst detection ++
           [StatRecognitionInference; StatRecognitionPostprocessing; StatTextCrop],
           Val tt)
      else (fst detection, Val tt)
  | _ => detection
  end.

(** ** Vocabulary of the further properties *)

Definition is_RawLine (e : Event) : bool :=
  match e with RawLine _ => true | _ => false end.

Definition is_ShowFrame (e : Event) : bool :=
  match e with ShowFrame _ _ => true | _ => false end.

(** The start and the end of a drawn line. *)
Definition line_start (a : Annotation) : option Point2f :=
  match a with DrawLine p _ => Some p | _ => None end.

Definition line_end (a : Annotation) : option Point2f :=
  match a with DrawLine _ q => Some q | _ => None end.

(** * Properties *)

(** ** Running the model *)

Example topLeftPoint_upright :
  topLeftPoint [pointf 0 5; pointf 0 0; pointf 9 0; pointf 9 5] = (pointf 0 0, 1).
Proof. vm_compute. reflexivity. Qed.

Example main_demo_run :
  main demo (demo_flags symbols36) [] [blank_frame; text_frame] =
  ([ShowFrame [] 0;
    RawLine ("30,35,30,25,50,25,50,35,AB" ++ endl);
    ShowFrame [DrawLine (pointf 30 35) (pointf 30 25);
               DrawLine (pointf 30 25) (pointf 50 25);
               DrawLine (pointf 50 25) (pointf 50 35);
               DrawLine (pointf 50 35) (pointf 30 35);
               DrawLabel "AB" (pointf 30 25)] 1],
   ReachedStatistics).
Proof. vm_compute. reflexivity. Qed.
Lemma Point2f_eqb_spec (p q : Point2f) : reflect (p = q) (Point2f_eqb p q).
Proof.
  unfold Point2f_eqb. destruct p as [a b], q as [c e]; simpl.
  destruct (Z.eqb_spec a c) as [->|Hx]; simpl.
  - destruct (Z.eqb_spec b e) as [->|Hy]; constructor; congruence.
  - constructor; congruence.
Qed.

Lemma pt_at_app_l (pre : list Point2f) (p : Point2f) (j : nat) :
  (j < length pre)%nat -> pt_at (pre ++ [p]) j = pt_at pre j.
Proof. intros Hj. unfold pt_at. now rewrite app_nth1. Qed.

Lemma pt_at_app_last (pre : list Point2f) (p : Point2f) :
  pt_at (pre ++ [p]) (length pre) = p.
Proof. unfold pt_at. apply nth_middle. Qed.

Lemma pt_at_In (points : list Point2f) (j : nat) :
  (j < length points)%nat -> In (pt_at points j) points.
Proof. intros Hj. unfold pt_at. now apply nth_In. Qed.

Lemma tl_body_first (p : Point2f) :
  px p < FLT_MAX -> tl_inv [p] (tl_body 0 p tl_init).
Proof.
  intros Hp. unfold tl_body. cbn [tl_init most_left almost_most_left px].
  destruct (Z.ltb_spec (px p) FLT_MAX) as [_|Hge]; [|lia].
  rewrite Z.eqb_refl. cbn [negb most_left almost_most_left most_left_idx
                            almost_most_left_idx tl_init px].
  destruct (Point2f_eqb_spec p p) as [_|Hne]; [|congruence].
  rewrite andb_false_r.
  exists 0%nat. cbn [most_left almost_most_left most_left_idx almost_most_left_idx].
  repeat split.
  - simpl. lia.
  - intros q [<-|[]]. unfold pt_at. simpl. lia.
  - intros j Hj. lia.
  - left. repeat split. intros q [<-|[]]. reflexivity.
Qed.

Ltac tl_fields :=
  cbn [most_left almost_most_left most_left_idx almost_most_left_idx] in *.

Lemma tl_body_step (pre : list Point2f) (p : Point2f) (s : tl_vars) :
  Forall (fun q => px q < FLT_MAX) pre ->
  px p < FLT_MAX ->
  tl_inv pre s ->
  tl_inv (pre ++ [p]) (tl_body (Z.of_nat (length pre)) p s).
Proof.
  intros Hfin Hp (i & (Hi & Hmin & Hfst) & Hml & Hmli & Halm).
  assert (Hlen : length (pre ++ [p]) = S (length pre))
    by (rewrite length_app; simpl; lia).
  assert (Hmlx : px (most_left s) < FLT_MAX).
  { rewrite Hml. rewrite Forall_forall in Hfin. apply Hfin. now apply pt_at_In. }
  unfold tl_body.
  destruct (Z.ltb_spec (px p) (px (most_left s))) as [Hlt|Hge].
  - (* a new most-left point: the old one becomes the runner-up *)
    destruct (Z.eqb_spec (px (most_left s)) FLT_MAX) as [Heq|_]; [lia|].
    cbn [negb]. tl_fields.
    destruct (Point2f_eqb_spec p p) as [_|Hne]; [|congruence].
    rewrite andb_false_r.
    exists (length pre). tl_fields. rewrite pt_at_app_last.
    split; [|split; [reflexivity|split; [reflexivity|]]].
    + split; [lia|]. rewrite pt_at_app_last. split.
      * intros q Hq. apply in_app_or in Hq as [Hq|[<-|[]]]; [|lia].
        specialize (Hmin q Hq). rewrite <- Hml in Hmin. lia.
      * intros j Hj. rewrite pt_at_app_l by exact Hj.
        specialize (Hmin _ (pt_at_In pre j Hj)). rewrite <- Hml in Hmin. lia.
    + right. exists i. rewrite pt_at_app_l by exact Hi.
      split; [|split; [exact Hml|exact Hmli]].
      split; [lia|]. rewrite pt_at_app_l by exact Hi. rewrite pt_at_app_last.
      split; [|split].
      * intros Heq. rewrite <- Hml in Heq. rewrite Heq in Hlt. lia.
      * intros q Hq Hne. apply in_app_or in Hq as [Hq|[<-|[]]]; [|congruence].
        now apply Hmin.
      * intros j Hj _. rewrite pt_at_app_l by lia. now apply Hfst.
  - (* most_left is kept *)
    assert (Hleft : leftmost (pre ++ [p]) i).
    { split; [lia|]. rewrite pt_at_app_l by exact Hi. split.
      - intros q Hq. apply in_app_or in Hq as [Hq|[<-|[]]].
        + now apply Hmin.
        + rewrite <- Hml. exact Hge.
      - intros j Hj. rewrite pt_at_app_l by lia. now apply Hfst. }
    destruct (Z.ltb_spec (px p) (px (almost_most_left s))) as [Hlt2|Hge2];
      destruct (Point2f_eqb_spec p (most_left s)) as [Heq|Hne]; cbn [andb negb].
    + (* p equals most_left: skipped *)
      exists i. split; [exact Hleft|]. rewrite pt_at_app_l by exact Hi.
      split; [exact Hml|split; [exact Hmli|]].
      destruct Halm as [(Ha & Hai & Hall)|(k & (Hk & Hkne & Hkmin & Hkfst) & Ha & Hai)].
      * left. split; [exact Ha|split; [exact Hai|]].
        intros q Hq. apply in_app_or in Hq as [Hq|[<-|[]]]; [now apply Hall|congruence].
      * right. exists k. rewrite pt_at_app_l by exact Hk.
        split; [|split; [exact Ha|exact Hai]].
        split; [lia|]. rewrite !pt_at_app_l by assumption. split; [exact Hkne|split].
        -- intros q Hq Hqne. apply in_app_or in Hq as [Hq|[<-|[]]]; [now apply Hkmin|congruence].
        -- intros j Hj Hjne. rewrite pt_at_app_l in * by lia. now apply Hkfst.
    + (* a new runner-up *)
      exists i. tl_fields. split; [exact Hleft|]. rewrite pt_at_app_l by exact Hi.
      split; [exact Hml|split; [exact Hmli|]].
      right. exists (length pre). rewrite pt_at_app_last.
      split; [|split; reflexivity].
      split; [lia|]. rewrite pt_at_app_last, pt_at_app_l by exact Hi.
      rewrite <- Hml. split; [exact Hne|].
      destruct Halm as [(Ha & Hai & Hall)|(k & (Hk & Hkne & Hkmin & Hkfst) & Ha & Hai)].
      * split.
        -- intros q Hq Hqne. apply in_app_or in Hq as [Hq|[<-|[]]]; [|lia].
           rewrite Hml in Hqne. now specialize (Hall q Hq).
        -- intros j Hj Hjne. rewrite pt_at_app_l in * by exact Hj.
           rewrite Hml in Hjne. now specialize (Hall _ (pt_at_In pre j Hj)).
      * rewrite Ha in Hlt2. split.
        -- intros q Hq Hqne. apply in_app_or in Hq as [Hq|[<-|[]]]; [|lia].
           rewrite Hml in Hqne. specialize (Hkmin q Hq Hqne). lia.
        -- intros j Hj Hjne. rewrite pt_at_app_l in * by exact Hj.
           rewrite Hml in Hjne.
           specialize (Hkmin _ (pt_at_In pre j Hj) Hjne). lia.
    + (* p equals most_left and is not left of the runner-up *)
      exists i. split; [exact Hleft|]. rewrite pt_at_app_l by exact Hi.
      split; [exact Hml|split; [exact Hmli|]].
      destruct Halm as [(Ha & Hai & Hall)|(k & (Hk & Hkne & Hkmin & Hkfst) & Ha & Hai)].
      * left. split; [exact Ha|split; [exact Hai|]].
        intros q Hq. apply in_app_or in Hq as [Hq|[<-|[]]]; [now apply Hall|congruence].
      * right. exists k. rewrite pt_at_app_l by exact Hk.
        split; [|split; [exact Ha|exact Hai]].
        split; [lia|]. rewrite !pt_at_app_l by assumption. split; [exact Hkne|split].
        -- intros q Hq Hqne. apply in_app_or in Hq as [Hq|[<-|[]]]; [now apply Hkmin|congruence].
        -- intros j Hj Hjne. rewrite pt_at_app_l in * by lia. now apply Hkfst.
    + (* p differs from most_left but is not left of the runner-up *)
      exists i. split; [exact Hleft|]. rewrite pt_at_app_l by exact Hi.
      split; [exact Hml|split; [exact Hmli|]].
      destruct Halm as [(Ha & Hai & Hall)|(k & (Hk & Hkne & Hkmin & Hkfst) & Ha & Hai)].
      * rewrite Ha in Hge2. cbn [px] in Hge2. lia.
      * right. exists k. rewrite pt_at_app_l by exact Hk.
        split; [|split; [exact Ha|exact Hai]].
        split; [lia|]. rewrite !pt_at_app_l by assumption. split; [exact Hkne|split].
        -- intros q Hq Hqne. apply in_app_or in Hq as [Hq|[<-|[]]]; [now apply Hkmin|].
           rewrite <- Ha. exact Hge2.
        -- intros j Hj Hjne. rewrite pt_at_app_l in * by lia. now apply Hkfst.
Qed.

Lemma tl_loop_inv (rest pre : list Point2f) (s : tl_vars) :
  Forall (fun q => px q < FLT_MAX) pre ->
  Forall (fun q => px q < FLT_MAX) rest ->
  tl_inv pre s ->
  tl_inv (pre ++ rest) (tl_loop (Z.of_nat (length pre)) rest s).
Proof.
  revert pre s. induction rest as [|p rest IH]; intros pre s Hpre Hrest Hinv.
  - rewrite app_nil_r. exact Hinv.
  - inversion Hrest as [|? ? Hp Hrest']; subst.
    cbn [tl_loop].
    replace (pre ++ p :: rest) with ((pre ++ [p]) ++ rest)
      by (rewrite <- app_assoc; reflexivity).
    replace (Z.of_nat (length pre) + 1) with (Z.of_nat (length (pre ++ [p])))
      by (rewrite length_app; simpl; lia).
    apply IH.
    + apply Forall_app. split; [exact Hpre|]. constructor; [exact Hp|constructor].
    + exact Hrest'.
    + now apply tl_body_step.
Qed.

(** After the loop over a non-empty list of points with x below the float
    maximum, the variables hold the leftmost point and its runner-up. *)
Lemma tl_loop_spec (points : list Point2f) :
  points <> [] ->
  Forall (fun q => px q < FLT_MAX) points ->
  tl_inv points (tl_loop 0 points tl_init).
Proof.
  intros Hne Hfin. destruct points as [|p rest]; [congruence|].
  inversion Hfin as [|? ? Hp Hrest]; subst.
  cbn [tl_loop]. change (0 + 1) with (Z.of_nat (length [p])).
  change (p :: rest) with ([p] ++ rest).
  apply tl_loop_inv.
  - constructor; [exact Hp|constructor].
  - exact Hrest.
  - now apply tl_body_first.
Qed.

(** ** topLeftPoint: in-range index (C10) *)

(** Discharges [Forall below_max] on a list of concrete points. *)
Ltac all_below_max :=
  repeat (apply Forall_cons || apply Forall_nil); split; vm_compute; reflexivity.

Lemma below_max_x (points : list Point2f) :
  Forall below_max points -> Forall (fun q => px q < FLT_MAX) points.
Proof. apply Forall_impl. intros q [Hx _]. exact Hx. Qed.

(** The result of [topLeftPoint] in terms of the leftmost point and its
    runner-up. *)
Lemma topLeftPoint_cases (points : list Point2f) :
  points <> [] ->
  Forall below_max points ->
  exists i,
    leftmost points i /\
    (((forall q, In q points -> q = pt_at points i) /\
      topLeftPoint points = (pt_at points i, Z.of_nat i))
     \/
     (exists k,
        runner_up points i k /\
        topLeftPoint points =
          if py (pt_at points k) <? py (pt_at points i)
          then (pt_at points k, Z.of_nat k)
          else (pt_at points i, Z.of_nat i))).
Proof.
  intros Hne Hfin.
  destruct (tl_loop_spec points Hne (below_max_x points Hfin))
    as (i & Hleft & Hml & Hmli & Halm).
  exists i. split; [exact Hleft|].
  unfold topLeftPoint.
  destruct Halm as [(Ha & Hai & Hall)|(k & Hk & Ha & Hai)].
  - left. split; [exact Hall|].
    rewrite Ha, Hml, Hmli. cbn [py].
    assert (Hy : py (pt_at points i) < FLT_MAX).
    { rewrite Forall_forall in Hfin.
      apply (Hfin (pt_at points i)). apply pt_at_In. apply Hleft. }
    destruct (Z.ltb_spec FLT_MAX (py (pt_at points i))); [lia|reflexivity].
  - right. exists k. split; [exact Hk|].
    rewrite Ha, Hai, Hml, Hmli. reflexivity.
Qed.

(** C10.  For a non-empty list of points whose coordinates are all strictly
    below the float maximum, the index written by [topLeftPoint] lies in
    [0, length): it is never the initial -1.  For a list of 4 points the
    three accesses of [cropImage] at that index and its successors modulo 4
    are then in bounds, so that [cropImage] is defined. *)
Theorem topLeftPoint_index_in_bounds (E : Collaborators) (points : list Point2f)
    (image : Mat) (target_size : Size) :
  points <> [] ->
  Forall below_max points ->
  let idx := snd (topLeftPoint points) in
  0 <= idx < Z.of_nat (length points) /\
  (length points = 4%nat ->
   (exists p0 p1 p2,
      vec_at points idx = Some p0 /\
      vec_at points (Z.rem (idx + 1) 4) = Some p1 /\
      vec_at points (Z.rem (idx + 2) 4) = Some p2) /\
   exists crop, cropImage E image points target_size idx = Some crop).
Proof.
  intros Hne Hfin idx.
  assert (Hidx : 0 <= idx < Z.of_nat (length points)).
  { subst idx.
    destruct (topLeftPoint_cases points Hne Hfin) as (i & (Hi & _) & [(_ & ->)|(k & (Hk & _) & ->)]).
    - cbn [snd]. lia.
    - destruct (py (pt_at points k) <? py (pt_at points i)); cbn [snd]; lia. }
  split; [exact Hidx|].
  intros Hlen.
  assert (Hat : forall j, 0 <= j < 4 -> exists p, vec_at points j = Some p).
  { intros j Hj. unfold vec_at.
    destruct (Z.ltb_spec j 0); [lia|].
    destruct (nth_error points (Z.to_nat j)) as [p|] eqn:Hn; [now exists p|].
    apply nth_error_None in Hn. lia. }
  rewrite Hlen in Hidx.
  assert (H1 : 0 <= Z.rem (idx + 1) 4 < 4) by (apply Z.rem_bound_pos; lia).
  assert (H2 : 0 <= Z.rem (idx + 2) 4 < 4) by (apply Z.rem_bound_pos; lia).
  destruct (Hat idx Hidx) as (p0 & Hp0).
  destruct (Hat _ H1) as (p1 & Hp1).
  destruct (Hat _ H2) as (p2 & Hp2).
  split; [now exists p0, p1, p2|].
  unfold cropImage. rewrite Hp0, Hp1, Hp2. eexists. reflexivity.
Qed.

Lemma topLeftPoint_index_in_bounds_witness :
  let points := [pointf 30 35; pointf 30 25; pointf 50 25; pointf 50 35] in
  0 <= snd (topLeftPoint points) < 4.
Proof.
  intros points.
  apply (topLeftPoint_index_in_bounds demo points (mkMat 64 48 []) (mkSize 120 32)).
  - discriminate.
  - all_below_max.
Defined.

(** ** topLeftPoint: which point is selected (C1) *)

(** C1, as stated, fails: the corners of a 100 x 50 rectangle with centre
    (100,100), turned so that its long side has direction (4,3), in
    traversal order.  The x-coordinates 125, 155, 75, 45 are at least 30
    pixels apart; the point of smallest x is (45,90), and the one selected
    is (75,50), the second from the left, because it lies higher. *)
Lemma topLeftPoint_not_always_leftmost :
  ~ (forall points,
       length points = 4%nat ->
       x_apart (float_of_int 30) points ->
       forall q, In q points -> px (fst (topLeftPoint points)) <= px q).
Proof.
  intros H.
  specialize (H [pointf 125 150; pointf 155 110; pointf 75 50; pointf 45 90] eq_refl).
  assert (Hapart : x_apart (float_of_int 30)
                     [pointf 125 150; pointf 155 110; pointf 75 50; pointf 45 90]).
  { cbn [x_apart]. repeat split.
    all: repeat (apply Forall_cons || apply Forall_nil).
    all: vm_compute; discriminate. }
  specialize (H Hapart (pointf 45 90)).
  assert (Hin : In (pointf 45 90)
                   [pointf 125 150; pointf 155 110; pointf 75 50; pointf 45 90])
    by (do 3 right; left; reflexivity).
  specialize (H Hin).
  vm_compute in H. apply H. reflexivity.
Qed.

Example topLeftPoint_turned_rectangle :
  topLeftPoint [pointf 125 150; pointf 155 110; pointf 75 50; pointf 45 90] =
  (pointf 75 50, 2).
Proof. vm_compute. reflexivity. Qed.

(** C1, amended.  For 4 points with coordinates below the float maximum,
    [topLeftPoint] compares the leftmost point (the first one of smallest x)
    with its runner-up (the first one of smallest x among the points that
    differ from the leftmost) by y, whatever their distance in x: it selects
    the runner-up when its y is strictly smaller and the leftmost point
    otherwise, and the leftmost point when all four points coincide. *)
Theorem topLeftPoint_upper_of_two_leftmost (points : list Point2f) :
  length points = 4%nat ->
  Forall below_max points ->
  exists i,
    leftmost points i /\
    (((forall q, In q points -> q = pt_at points i) /\
      topLeftPoint points = (pt_at points i, Z.of_nat i))
     \/
     (exists k,
        runner_up points i k /\
        topLeftPoint points =
          if py (pt_at points k) <? py (pt_at points i)
          then (pt_at points k, Z.of_nat k)
          else (pt_at points i, Z.of_nat i))).
Proof.
  intros Hlen Hfin. apply topLeftPoint_cases; [|exact Hfin].
  intros ->. discriminate.
Qed.

Lemma topLeftPoint_upper_of_two_leftmost_witness :
  let points := [pointf 125 150; pointf 155 110; pointf 75 50; pointf 45 90] in
  exists i,
    leftmost points i /\
    (((forall q, In q points -> q = pt_at points i) /\
      topLeftPoint points = (pt_at points i, Z.of_nat i))
     \/
     (exists k,
        runner_up points i k /\
        topLeftPoint points =
          if py (pt_at points k) <? py (pt_at points i)
          then (pt_at points k, Z.of_nat k)
          else (pt_at points i, Z.of_nat i))).
Proof.
  intros points.
  apply (topLeftPoint_upper_of_two_leftmost points).
  - reflexivity.
  - all_below_max.
Defined.

(** ** topLeftPoint under cyclic rotation of the corners (C8) *)

Lemma left_pair_true (points : list Point2f) (m a : Point2f) :
  left_pair points m a = true ->
  m <> a /\
  forall q, In q points -> q = m \/ q = a \/ (px m < px q /\ px a < px q).
Proof.
  unfold left_pair. rewrite andb_true_iff, negb_true_iff, forallb_forall.
  intros [Hne Hall]. split.
  - intros ->. destruct (Point2f_eqb_spec a a); [discriminate|congruence].
  - intros q Hq. specialize (Hall q Hq).
    rewrite !orb_true_iff, andb_true_iff, !Z.ltb_lt in Hall.
    destruct Hall as [[Hm|Ha]|Hlt].
    + left. now destruct (Point2f_eqb_spec q m).
    + right; left. now destruct (Point2f_eqb_spec q a).
    + right; right. exact Hlt.
Qed.

Lemma two_leftmost_apart_true (points : list Point2f) :
  two_leftmost_apart points = true ->
  exists m a, In m points /\ In a points /\ left_pair points m a = true.
Proof.
  unfold two_leftmost_apart. rewrite existsb_exists.
  intros (m & Hm & Hex). rewrite existsb_exists in Hex.
  destruct Hex as (a & Ha & Hpair). now exists m, a.
Qed.

(** With two different points strictly left of all others, the selected
    point is the upper one of that pair, however the list is ordered. *)
Lemma topLeftPoint_left_pair (points : list Point2f) (m a : Point2f) :
  Forall below_max points ->
  In m points -> In a points ->
  left_pair points m a = true ->
  fst (topLeftPoint points) = upper_of m a.
Proof.
  intros Hfin Hm Ha Hpair.
  apply left_pair_true in Hpair as [Hne Hall].
  assert (Hnil : points <> []) by (intros ->; destruct Hm).
  destruct (topLeftPoint_cases points Hnil Hfin)
    as (i & (Hi & Hmin & _) & [(Hsame & _)|(k & (Hk & Hkne & Hkmin & _) & ->)]).
  - exfalso. apply Hne. rewrite (Hsame m Hm), (Hsame a Ha). reflexivity.
  - pose proof (pt_at_In points i Hi) as Hini.
    pose proof (pt_at_In points k Hk) as Hink.
    pose proof (Hmin m Hm) as Hmm. pose proof (Hmin a Ha) as Hma.
    set (l := pt_at points i) in *. set (r := pt_at points k) in *.
    assert (Hl : l = m \/ l = a).
    { destruct (Hall l Hini) as [?|[?|?]]; [now left|now right|lia]. }
    assert (Hr : (l = m -> r = a) /\ (l = a -> r = m)).
    { split; intros Hlm.
      - destruct (Hall r Hink) as [?|[?|Hlt]]; [congruence|assumption|].
        assert (a <> l) by congruence.
        specialize (Hkmin a Ha H). lia.
      - destruct (Hall r Hink) as [?|[?|Hlt]]; [assumption|congruence|].
        assert (m <> l) by congruence.
        specialize (Hkmin m Hm H). lia. }
    destruct Hr as [Hr1 Hr2].
    assert (Hy : px m = px a -> py m <> py a).
    { intros Hx Hyy. apply Hne. destruct m, a; simpl in *; congruence. }
    unfold upper_of.
    destruct Hl as [Hlm|Hla].
    + rewrite (Hr1 Hlm), Hlm in *.
      destruct (Z.ltb_spec (px m) (px a)); [now destruct (py a <? py m)|].
      destruct (Z.ltb_spec (px a) (px m)); [lia|].
      now destruct (py a <? py m).
    + rewrite (Hr2 Hla), Hla in *.
      destruct (Z.ltb_spec (px m) (px a)); [lia|].
      destruct (Z.ltb_spec (px a) (px m)); [now destruct (py m <? py a)|].
      assert (px m = px a) by lia. specialize (Hy H1).
      destruct (Z.ltb_spec (py m) (py a)), (Z.ltb_spec (py a) (py m));
        cbn [fst]; try reflexivity; lia.
Qed.

Lemma In_rotate {A : Type} (k : nat) (l : list A) (x : A) :
  In x (rotate k l) <-> In x l.
Proof.
  unfold rotate. rewrite in_app_iff.
  rewrite <- (firstn_skipn k l) at 3. rewrite in_app_iff. tauto.
Qed.

Lemma left_pair_rotate (k : nat) (points : list Point2f) (m a : Point2f) :
  left_pair points m a = true -> left_pair (rotate k points) m a = true.
Proof.
  unfold left_pair. rewrite !andb_true_iff, !forallb_forall.
  intros [Hne Hall]. split; [exact Hne|].
  intros q Hq. apply Hall. now apply In_rotate in Hq.
Qed.

(** C8, as stated, fails: the corners of a rectangle with centre (10,10)
    and half-sides (2,1) and (-2,4), in traversal order, and the same
    corners rotated by one place.  Two corners tie for the second smallest
    x, and the scan keeps a different one of them in the two orders. *)
Lemma topLeftPoint_depends_on_rotation :
  ~ (forall (points : list Point2f) (k : nat),
       length points = 4%nat ->
       fst (topLeftPoint (rotate k points)) = fst (topLeftPoint points)).
Proof.
  intros H.
  specialize (H [pointf 10 15; pointf 14 7; pointf 10 5; pointf 6 13] 1%nat eq_refl).
  vm_compute in H. discriminate H.
Qed.

(** C8, amended.  For 4 corner points with coordinates below the float
    maximum, two of which differ and lie strictly to the left of the other
    two (as for pairwise distinct x-coordinates, or for an upright
    rectangle), [topLeftPoint] selects the same point, by coordinates, on
    every cyclic rotation of the list. *)
Theorem topLeftPoint_rotation_invariant (points : list Point2f) (k : nat) :
  length points = 4%nat ->
  Forall below_max points ->
  two_leftmost_apart points = true ->
  fst (topLeftPoint (rotate k points)) = fst (topLeftPoint points).
Proof.
  intros _ Hfin Htwo.
  destruct (two_leftmost_apart_true points Htwo) as (m & a & Hm & Ha & Hpair).
  rewrite (topLeftPoint_left_pair points m a Hfin Hm Ha Hpair).
  apply topLeftPoint_left_pair.
  - rewrite Forall_forall in *. intros q Hq. apply Hfin. now apply In_rotate in Hq.
  - now apply In_rotate.
  - now apply In_rotate.
  - now apply left_pair_rotate.
Qed.

Lemma topLeftPoint_rotation_invariant_witness :
  let points := [pointf 30 35; pointf 30 25; pointf 50 25; pointf 50 35] in
  fst (topLeftPoint (rotate 3 points)) = fst (topLeftPoint points).
Proof.
  intros points.
  apply (topLeftPoint_rotation_invariant points 3).
  - reflexivity.
  - all_below_max.
  - vm_compute. reflexivity.
Defined.

(** ** cropImage: the three corners of the affine transform (C5) *)

Lemma vec_at_nat {A : Type} (v : list A) (n : nat) :
  vec_at v (Z.of_nat n) = nth_error v n.
Proof.
  unfold vec_at. destruct (Z.ltb_spec (Z.of_nat n) 0); [lia|].
  now rewrite Nat2Z.id.
Qed.

Lemma float_of_int_exact (n : Z) :
  Z.abs n < 2 ^ 24 -> float_of_int n = n * FLT_UNIT.
Proof.
  intros Hn. unfold float_of_int. cbv zeta.
  destruct (Z.ltb_spec (Z.abs n) (2 ^ 24)); [reflexivity|lia].
Qed.

Lemma rem_succ_index (i : nat) (d : Z) :
  (i < 4)%nat -> 0 <= d ->
  Z.rem (Z.of_nat i + d) 4 = Z.of_nat ((i + Z.to_nat d) mod 4).
Proof.
  intros Hi Hd. rewrite Z.rem_mod_nonneg by lia.
  rewrite Nat2Z.inj_mod, Nat2Z.inj_add, Z2Nat.id by lia. reflexivity.
Qed.

(** C5.  For a list of 4 corners and an anchor index i in 0..3, [cropImage]
    warps the image with the affine transform computed from exactly the
    corners i, (i+1) mod 4, (i+2) mod 4 and the destination points (0,0),
    (width-1, 0), (width-1, height-1), the integers converted to float; the
    result is the same for any other 4 corners that agree at these three
    indices, so the corner (i+3) mod 4 takes no part. *)
Theorem cropImage_three_corners (E : Collaborators) (image : Mat)
    (points : list Point2f) (target_size : Size) (i : nat) :
  length points = 4%nat ->
  (i < 4)%nat ->
  cropImage E image points target_size (Z.of_nat i) =
    Some (warpAffine E image
            (getAffineTransform E
               [pt_at points i; pt_at points ((i + 1) mod 4); pt_at points ((i + 2) mod 4)]
               [mkPoint2f 0 0;
                mkPoint2f (float_of_int (width target_size - 1)) 0;
                mkPoint2f (float_of_int (width target_size - 1))
                          (float_of_int (height target_size - 1))])
            target_size)
  /\
  (forall points' : list Point2f,
     length points' = 4%nat ->
     pt_at points' i = pt_at points i ->
     pt_at points' ((i + 1) mod 4) = pt_at points ((i + 1) mod 4) ->
     pt_at points' ((i + 2) mod 4) = pt_at points ((i + 2) mod 4) ->
     cropImage E image points' target_size (Z.of_nat i) =
     cropImage E image points target_size (Z.of_nat i)).
Proof.
  intros Hlen Hi.
  assert (Hcrop : forall pts : list Point2f,
            length pts = 4%nat ->
            cropImage E image pts target_size (Z.of_nat i) =
            Some (warpAffine E image
                    (getAffineTransform E
                       [pt_at pts i; pt_at pts ((i + 1) mod 4); pt_at pts ((i + 2) mod 4)]
                       [mkPoint2f 0 0;
                        mkPoint2f (float_of_int (width target_size - 1)) 0;
                        mkPoint2f (float_of_int (width target_size - 1))
                                  (float_of_int (height target_size - 1))])
                    target_size)).
  { intros pts Hpts. unfold cropImage.
    rewrite (rem_succ_index i 1 Hi), (rem_succ_index i 2 Hi) by lia.
    rewrite !vec_at_nat.
    change (Z.to_nat 1) with 1%nat. change (Z.to_nat 2) with 2%nat.
    assert (H1 : ((i + 1) mod 4 < 4)%nat) by (apply Nat.mod_upper_bound; lia).
    assert (H2 : ((i + 2) mod 4 < 4)%nat) by (apply Nat.mod_upper_bound; lia).
    rewrite (nth_error_nth' pts origin) by lia.
    rewrite (nth_error_nth' pts origin) by lia.
    rewrite (nth_error_nth' pts origin) by lia.
    reflexivity. }
  split; [now apply Hcrop|].
  intros points' Hlen' H0 H1 H2.
  rewrite (Hcrop points' Hlen'), (Hcrop points Hlen), H0, H1, H2. reflexivity.
Qed.

Lemma cropImage_three_corners_witness :
  cropImage demo (mkMat 64 48 [])
            [pointf 30 35; pointf 30 25; pointf 50 25; pointf 50 35]
            (mkSize 120 32) 1 =
  Some (mkMat 120 32 []).
Proof.
  refine (proj1 (cropImage_three_corners demo (mkMat 64 48 [])
                   [pointf 30 35; pointf 30 25; pointf 50 25; pointf 50 35]
                   (mkSize 120 32) 1 _ _)).
  - reflexivity.
  - lia.
Defined.

Example cropImage_transform_points :
  getAffineTransform demo
    [pointf 30 25; pointf 50 25; pointf 50 35]
    [pointf 0 0; pointf 119 0; pointf 119 31] =
  ([pointf 30 25; pointf 50 25; pointf 50 35], [pointf 0 0; pointf 119 0; pointf 119 31]).
Proof. reflexivity. Qed.

(** ** The cap on the number of regions (C6) *)

Lemma static_cast_int_small (n : Z) :
  0 <= n < 2 ^ 31 -> static_cast_int n = n.
Proof.
  intros Hn. unfold static_cast_int.
  rewrite Z.mod_small by lia. lia.
Qed.

Lemma area_gt_false (E : Collaborators) (a b : RotatedRect) :
  area_gt E b a = false <-> area E (size b) <= area E (size a).
Proof. unfold area_gt. rewrite Z.ltb_ge. reflexivity. Qed.

Lemma StronglySorted_firstn {A : Type} (R : A -> A -> Prop) (n : nat) (l : list A) :
  StronglySorted R l -> StronglySorted R (firstn n l).
Proof.
  revert l. induction n as [|n IH]; intros l Hs; [constructor|].
  destruct l as [|x l]; [constructor|].
  inversion Hs as [|? ? Hs' Hx]; subst. cbn [firstn]. constructor.
  - now apply IH.
  - rewrite Forall_forall in *. intros y Hy. apply Hx.
    rewrite <- (firstn_skipn n l). apply in_or_app. now left.
Qed.

Lemma StronglySorted_split {A : Type} (R : A -> A -> Prop) (n : nat) (l : list A) :
  StronglySorted R l ->
  forall x y, In x (firstn n l) -> In y (skipn n l) -> R x y.
Proof.
  revert l. induction n as [|n IH]; intros l Hs x y Hx Hy; [destruct Hx|].
  destruct l as [|z l]; [destruct Hx|].
  inversion Hs as [|? ? Hs' Hz]; subst.
  cbn [firstn skipn] in *. destruct Hx as [<-|Hx].
  - rewrite Forall_forall in Hz. apply Hz.
    rewrite <- (firstn_skipn n l). apply in_or_app. now right.
  - now apply (IH l).
Qed.

(** C6.  With [std::sort] meeting its postcondition and fewer than 2^31
    rectangles: when the cap N is non-negative and there are more than N
    rectangles, the forwarded list has N of them, in descending order of
    area, and no dropped rectangle has a larger area than a kept one; when
    there are at most N rectangles, or N is negative, the list is forwarded
    as it is. *)
Theorem cap_rects_largest (E : Collaborators) (N : Z) (rects : list RotatedRect) :
  sort_contract E ->
  Z.of_nat (length rects) < 2 ^ 31 ->
  (0 <= N < Z.of_nat (length rects) ->
   exists dropped,
     Permutation (cap_rects E N rects ++ dropped) rects /\
     Z.of_nat (length (cap_rects E N rects)) = N /\
     StronglySorted (fun a b => area E (size b) <= area E (size a)) (cap_rects E N rects) /\
     forall k d, In k (cap_rects E N rects) -> In d dropped ->
                 area E (size d) <= area E (size k))
  /\
  (N < 0 \/ Z.of_nat (length rects) <= N -> cap_rects E N rects = rects).
Proof.
  intros Hsort Hlen. unfold cap_rects.
  rewrite static_cast_int_small by lia.
  split.
  - intros HN.
    destruct (Z.leb_spec 0 N); [|lia].
    destruct (Z.ltb_spec N (Z.of_nat (length rects))); [|lia].
    cbn [andb].
    destruct (Hsort rects) as [Hperm Hsorted].
    set (sorted := std_sort E (area_gt E) rects) in *.
    assert (Hdesc : StronglySorted (fun a b => area E (size b) <= area E (size a)) sorted).
    { clearbody sorted. clear Hperm.
      induction Hsorted as [|x l Hl IH Hx]; constructor; [exact IH|].
      rewrite Forall_forall in *. intros y Hy. apply area_gt_false. now apply Hx. }
    exists (skipn (Z.to_nat N) sorted).
    split; [|split; [|split]].
    + rewrite firstn_skipn. now apply Permutation_sym.
    + rewrite length_firstn, <- (Permutation_length Hperm). lia.
    + now apply StronglySorted_firstn.
    + intros k d Hk Hd.
      apply (StronglySorted_split _ (Z.to_nat N) sorted Hdesc k d Hk Hd).
  - intros HN.
    destruct (Z.leb_spec 0 N); cbn [andb]; [|reflexivity].
    destruct (Z.ltb_spec N (Z.of_nat (length rects))); [lia|reflexivity].
Qed.

(** The insertion sort of the demonstration collaborators meets the
    postcondition of [std::sort]. *)
Lemma insert_by_perm (cmp : RotatedRect -> RotatedRect -> bool) (x : RotatedRect)
    (l : list RotatedRect) :
  Permutation (x :: l) (insert_by cmp x l).
Proof.
  induction l as [|y l IH]; cbn [insert_by]; [reflexivity|].
  destruct (cmp x y); [reflexivity|].
  rewrite perm_swap. now constructor.
Qed.

Lemma insertion_sort_perm (cmp : RotatedRect -> RotatedRect -> bool)
    (l : list RotatedRect) :
  Permutation l (insertion_sort cmp l).
Proof.
  induction l as [|x l IH]; [reflexivity|].
  cbn [insertion_sort fold_right].
  rewrite <- insert_by_perm. now constructor.
Qed.

Lemma insert_by_sorted (E : Collaborators) (x : RotatedRect) (l : list RotatedRect) :
  StronglySorted (fun a b => area_gt E b a = false) l ->
  StronglySorted (fun a b => area_gt E b a = false) (insert_by (area_gt E) x l).
Proof.
  induction 1 as [|y l Hl IH Hy]; cbn [insert_by].
  - repeat constructor.
  - destruct (area_gt E x y) eqn:Hxy.
    + constructor; [now constructor|].
      unfold area_gt in Hxy. apply Z.ltb_lt in Hxy.
      constructor.
      * apply area_gt_false. lia.
      * rewrite Forall_forall in *. intros z Hz.
        specialize (Hy z Hz). apply area_gt_false in Hy. apply area_gt_false. lia.
    + constructor; [exact IH|].
      rewrite Forall_forall in *. intros z Hz.
      apply (Permutation_in _ (Permutation_sym (insert_by_perm (area_gt E) x l))) in Hz.
      destruct Hz as [<-|Hz]; [|now apply Hy].
      unfold area_gt in *. apply Z.ltb_ge in Hxy. apply Z.ltb_ge. lia.
Qed.

Lemma insertion_sort_contract (E : Collaborators) :
  std_sort E = insertion_sort -> sort_contract E.
Proof.
  intros Heq l. rewrite Heq. split; [apply insertion_sort_perm|].
  induction l as [|x l IH]; [constructor|].
  cbn [insertion_sort fold_right]. now apply insert_by_sorted.
Qed.

Lemma cap_rects_largest_witness :
  let rects := [upright 10 10 4 2; upright 20 20 8 6; upright 30 30 5 5; upright 5 5 1 1] in
  exists dropped,
    Permutation (cap_rects demo 2 rects ++ dropped) rects /\
    Z.of_nat (length (cap_rects demo 2 rects)) = 2 /\
    StronglySorted (fun a b => area demo (size b) <= area demo (size a))
                   (cap_rects demo 2 rects) /\
    forall k d, In k (cap_rects demo 2 rects) -> In d dropped ->
                area demo (size d) <= area demo (size k).
Proof.
  intros rects.
  refine (proj1 (cap_rects_largest demo 2 rects _ _) _).
  - apply insertion_sort_contract. reflexivity.
  - reflexivity.
  - subst rects. cbn [length]. lia.
Defined.

Example cap_rects_demo :
  cap_rects demo 2 [upright 10 10 4 2; upright 20 20 8 6; upright 30 30 5 5; upright 5 5 1 1]
  = [upright 20 20 8 6; upright 30 30 5 5].
Proof. vm_compute. reflexivity. Qed.

(** ** The zero rectangle used without a detector (C7) *)

(** C7.  When the detector is not initialised, the list of rectangles of a
    frame is the single rectangle with centre (0,0), size 0 x 0 and angle 0.
    That rectangle never enters the rectification branch: whatever the
    detector, [crop_stage] on it takes the fixed centre crop under [-cc]
    (which throws when the window is not inside the image) and the whole
    image otherwise.  Every rectangle that survives the cap is this one,
    and it is the only one forwarded unless the cap is 0. *)
Theorem no_detector_zero_rect (E : Collaborators) (fl : Flags)
    (text_detection : Cnn (BlobMap E)) (text_recognition : Cnn Blob) (image : Mat) :
  is_initialized text_detection = false ->
  let zero := mkRotatedRect (mkPoint2f 0 0) (mkSize2f 0 0) 0 in
  detect_rects E fl text_detection image = [zero] /\
  (forall td : Cnn (BlobMap E),
     crop_stage E fl td text_recognition image zero =
       if FLAGS_cc fl then
         if roi_inside image (center_rect image) then
           ret (Mat_roi E image (center_rect image),
                [mkPoint2f (float_of_int (rect_x (center_rect image)))
                           (float_of_int (rect_y (center_rect image)))],
                0, [DrawRect (center_rect image)])
         else throw (cv_Exception (roi_error E))
       else ret (image, [], 0, [])) /\
  (forall rect, In rect (frame_rects E fl text_detection image) -> rect = zero) /\
  (FLAGS_max_rect_num fl <> 0 -> frame_rects E fl text_detection image = [zero]).
Proof.
  intros Htd zero.
  assert (Hdet : detect_rects E fl text_detection image = [zero]).
  { unfold detect_rects. now rewrite Htd. }
  split; [exact Hdet|]. split; [|split].
  - intros td. unfold crop_stage. reflexivity.
  - intros rect. unfold frame_rects, cap_rects. rewrite Hdet.
    cbn [length]. rewrite static_cast_int_small by (cbn; lia).
    destruct (Z.leb_spec 0 (FLAGS_max_rect_num fl)); cbn [andb].
    + destruct (Z.ltb_spec (FLAGS_max_rect_num fl) (Z.of_nat 1)).
      * replace (FLAGS_max_rect_num fl) with 0 by lia. intros [].
      * intros [<-|[]]. reflexivity.
    + intros [<-|[]]. reflexivity.
  - intros Hcap. unfold frame_rects, cap_rects. rewrite Hdet.
    cbn [length]. rewrite static_cast_int_small by (cbn; lia).
    destruct (Z.leb_spec 0 (FLAGS_max_rect_num fl)); cbn [andb]; [|reflexivity].
    destruct (Z.ltb_spec (FLAGS_max_rect_num fl) (Z.of_nat 1)); [lia|reflexivity].
Qed.

Lemma no_detector_zero_rect_witness :
  detect_rects demo (demo_flags symbols36) (Cnn_default []) (mkMat 64 48 [255]) =
  [mkRotatedRect (mkPoint2f 0 0) (mkSize2f 0 0) 0].
Proof.
  refine (proj1 (no_detector_zero_rect demo (demo_flags symbols36) (Cnn_default [])
                   (Cnn_default (mkBlob [] [])) (mkMat 64 48 [255]) _)).
  reflexivity.
Defined.

Example main_without_detector :
  main demo
    (mkFlags false "video.mp4" "" "text-recognition.xml" symbols36
             (1 # 5) (4 # 5) (4 # 5) (-1) 1280 768 false true false)
    [] [text_frame] =
  ([RawLine ("," ++ "AB" ++ endl); ShowFrame [] 1], ReachedStatistics).
Proof. vm_compute. reflexivity. Qed.

(** ** The confidence threshold (C4) *)

(** C4.  When the recognizer is initialised and its output width matches
    the alphabet, and the decoder returns the string s with confidence c:
    the forwarded string is s when c >= FLAGS_thr, the boundary c == FLAGS_thr
    included, and the empty string when c < FLAGS_thr; the confidence
    reported is c in both cases. *)
Theorem recognition_threshold (E : Collaborators) (fl : Flags)
    (text_recognition : Cnn Blob) (kAlphabet : string) (cropped_text : Mat)
    (num_found shape0 : Z) (s : string) (c : Q) :
  is_initialized text_recognition = true ->
  let blob := Infer text_recognition cropped_text in
  vec_at (getDims blob) 2 = Some (Z.of_nat (String.length kAlphabet)) ->
  vec_at (getDims blob) 0 = Some shape0 ->
  CTCGreedyDecoder E
    (firstn (Z.to_nat (shape0 * Z.of_nat (String.length kAlphabet))) (buffer blob))
    kAlphabet kPadSymbol = (s, c) ->
  exists res n,
    recognition_stage E fl text_recognition kAlphabet cropped_text num_found =
      ret (res, c, n) /\
    (FLAGS_thr fl <= c -> res = s)%Q /\
    (c == FLAGS_thr fl -> res = s)%Q /\
    (c < FLAGS_thr fl -> res = EmptyString)%Q.
Proof.
  intros Hinit blob Hwidth Hsteps Hdec.
  unfold recognition_stage. rewrite Hinit.
  fold blob. rewrite Hwidth, Z.eqb_refl. cbn [negb].
  rewrite Hsteps, Hdec.
  eexists. eexists. split; [reflexivity|].
  destruct (Qle_bool (FLAGS_thr fl) c) eqn:Hle.
  - split; [reflexivity|]. split; [reflexivity|].
    intros Hlt. apply Qle_bool_iff in Hle. apply Qlt_not_le in Hlt. contradiction.
  - assert (Hnle : ~ (FLAGS_thr fl <= c)%Q).
    { intros H. apply Qle_bool_iff in H. congruence. }
    split; [intros H; contradiction|].
    split; [|reflexivity].
    intros Heq. exfalso. apply Hnle. rewrite Heq. apply Qle_refl.
Qed.

Lemma recognition_threshold_witness :
  exists res n,
    recognition_stage demo (demo_flags symbols36) (init_recognizer demo (demo_flags symbols36))
      (symbols36 ++ "#") (mkMat 120 32 []) 0 = ret (res, (1 # 2)%Q, n) /\
    ((1 # 5) <= (1 # 2) -> res = "AB"%string)%Q /\
    ((1 # 2) == (1 # 5) -> res = "AB"%string)%Q /\
    ((1 # 2) < (1 # 5) -> res = EmptyString)%Q.
Proof.
  apply (recognition_threshold demo (demo_flags symbols36)
           (init_recognizer demo (demo_flags symbols36))
           (symbols36 ++ "#") (mkMat 120 32 []) 0 30 "AB" (1 # 2)%Q).
  - reflexivity.
  - reflexivity.
  - reflexivity.
  - reflexivity.
Defined.

Example threshold_boundary :
  recognition_stage demo
    (mkFlags false "i" "d" "r" symbols36 (1 # 2) (4 # 5) (4 # 5) (-1) 1280 768 false true false)
    (init_recognizer demo (demo_flags symbols36)) (symbols36 ++ "#") (mkMat 120 32 []) 0
  = ret ("AB"%string, (1 # 2)%Q, 1).
Proof. reflexivity. Qed.

Example threshold_below :
  recognition_stage demo
    (mkFlags false "i" "d" "r" symbols36 (3 # 5) (4 # 5) (4 # 5) (-1) 1280 768 false true false)
    (init_recognizer demo (demo_flags symbols36)) (symbols36 ++ "#") (mkMat 120 32 []) 0
  = ret (EmptyString, (1 # 2)%Q, 0).
Proof. reflexivity. Qed.

(** ** The line written for a region (C9) *)

Lemma append_nil_r (s : string) : (s ++ "")%string = s.
Proof. induction s as [|c s IH]; cbn [append]; [reflexivity|now rewrite IH]. Qed.

Lemma clip_range (x max_val : Z) : 0 <= max_val -> 0 <= clip x max_val <= max_val.
Proof. unfold clip. lia. Qed.

Lemma int_of_float_fits (v : Z) :
  fits_int (trunc_float v) = true -> int_of_float v = Some (trunc_float v).
Proof. intros Hfit. unfold int_of_float. now rewrite Hfit. Qed.

Lemma raw_coords_concat (image : Mat) (points : list Point2f) :
  coords_fit_int points = true ->
  raw_coords image points =
  Some (String.concat ","
          (map string_of_Z (clamped_coords (cols image) (rows image) points))).
Proof.
  induction points as [|p rest IH]; intros Hfit; [reflexivity|].
  cbn [coords_fit_int forallb] in Hfit.
  apply andb_true_iff in Hfit as [Hp Hrest].
  apply andb_true_iff in Hp as [Hx Hy].
  cbn [raw_coords]. rewrite (int_of_float_fits _ Hx), (int_of_float_fits _ Hy).
  rewrite (IH Hrest).
  cbn [clamped_coords flat_map app map String.concat].
  fold (clamped_coords (cols image) (rows image) rest).
  unfold clip. f_equal. f_equal. f_equal.
  destruct rest as [|p' rest'].
  - cbn [clamped_coords flat_map map String.concat]. now rewrite !append_nil_r.
  - cbn [clamped_coords flat_map app map]. reflexivity.
Qed.

(** C9.  For a non-empty image of width W and height H and points whose
    coordinates convert to [int], the line written for a region is the
    comma separated list of the integers min(max(int(x),0),W-1),
    min(max(int(y),0),H-1) of all points in order, followed by a comma and
    the decoded string when the recognizer is initialised, and the end of
    line; every such integer lies in [0, W-1], respectively [0, H-1]. *)
Theorem raw_line_clamped (text_recognition : Cnn Blob) (image : Mat)
    (points : list Point2f) (res : string) :
  0 < cols image ->
  0 < rows image ->
  coords_fit_int points = true ->
  raw_line text_recognition image points res =
    Some (spec_line (is_initialized text_recognition) (cols image) (rows image)
                    points res)
  /\
  Forall (fun p =>
            int_of_float (px p) = Some (trunc_float (px p)) /\
            int_of_float (py p) = Some (trunc_float (py p)) /\
            0 <= clip (trunc_float (px p)) (cols image - 1) <= cols image - 1 /\
            0 <= clip (trunc_float (py p)) (rows image - 1) <= rows image - 1) points.
Proof.
  intros HW HH Hfit. split.
  - unfold raw_line, spec_line. now rewrite raw_coords_concat.
  - apply Forall_forall. intros p Hp.
    unfold coords_fit_int in Hfit. rewrite forallb_forall in Hfit.
    specialize (Hfit p Hp). apply andb_true_iff in Hfit as [Hx Hy].
    split; [now apply int_of_float_fits|]. split; [now apply int_of_float_fits|].
    split; apply clip_range; lia.
Qed.

Lemma raw_line_clamped_witness :
  raw_line (init_recognizer demo (demo_flags symbols36)) (mkMat 64 48 [])
           [pointf (-3) 35; pointf 30 25; pointf 70 25; pointf 50 60] "AB" =
  Some ("0,35,30,25,63,25,50,47,AB" ++ endl)%string.
Proof.
  refine (eq_trans (proj1 (raw_line_clamped (init_recognizer demo (demo_flags symbols36))
                             (mkMat 64 48 [])
                             [pointf (-3) 35; pointf 30 25; pointf 70 25; pointf 50 60]
                             "AB" _ _ _)) _).
  - reflexivity.
  - reflexivity.
  - vm_compute. reflexivity.
  - vm_compute. reflexivity.
Defined.

Example raw_line_fraction :
  raw_coords (mkMat 64 48 [])
    [mkPoint2f (5 * FLT_UNIT / 2) (-(FLT_UNIT / 2))] = Some "2,0"%string.
Proof. vm_compute. reflexivity. Qed.

(** A coordinate of 3 * 10^9 pixels does not convert to [int]: the line is
    not defined. *)
Example raw_line_out_of_int_range :
  raw_line (init_recognizer demo (demo_flags symbols36)) (mkMat 64 48 [])
           [mkPoint2f (3000000000 * FLT_UNIT) 0] "AB" = None.
Proof. vm_compute. reflexivity. Qed.

(** ** The reserved pad symbol in the alphabet (C3) *)

Lemma string_contains_In (c : ascii) (s : string) :
  string_contains c s = true <-> In c (list_ascii_of_string s).
Proof.
  induction s as [|a s IH]; cbn [string_contains list_ascii_of_string In].
  - split; [discriminate|tauto].
  - rewrite orb_true_iff, IH. split; (intros [H|H]; [left|right; exact H]).
    + now apply Ascii.eqb_eq.
    + now apply Ascii.eqb_eq.
Qed.

Lemma bind_ret_l {A B : Type} (a : A) (k : A -> M B) : bind (ret a) k = k a.
Proof. unfold bind, ret. cbn [fst snd app]. now destruct (k a). Qed.

(** C3.  Once the command line has been accepted: an alphabet that contains
    '#' makes [main] fail with the invalid-argument message before any
    frame is grabbed, so that nothing has been emitted; an alphabet without
    '#' gives the internal alphabet "symbols#" and [main] runs the frame
    loop with it. *)
Theorem alphabet_pad_symbol (E : Collaborators) (fl : Flags) (dflt : BlobMap E)
    (frames : list Frame) :
  ParseAndCheckCommandLine fl = ret true ->
  (In kPadSymbol (list_ascii_of_string (FLAGS_m_tr_ss fl)) ->
   main E fl dflt frames =
     ([], ExitFailure
            "Symbols set for Text Recongition model must not contain reserved symbol '#'"))
  /\
  (~ In kPadSymbol (list_ascii_of_string (FLAGS_m_tr_ss fl)) ->
   make_alphabet fl = ret (FLAGS_m_tr_ss fl ++ "#")%string /\
   let run := frame_loop E fl (init_detector E fl dflt) (init_recognizer E fl)
                (FLAGS_m_tr_ss fl ++ "#")%string frames in
   main E fl dflt frames =
     (fst run,
      match snd run with
      | Val _ => ReachedStatistics
      | Throw e => ExitFailure (exn_what e)
      | Undefined => UndefinedBehaviour
      end)).
Proof.
  intros Hparse. unfold main, main_body. rewrite Hparse, bind_ret_l. cbn [negb].
  split.
  - intros Hin. apply string_contains_In in Hin.
    unfold make_alphabet. rewrite Hin. reflexivity.
  - intros Hnot.
    assert (Hc : string_contains kPadSymbol (FLAGS_m_tr_ss fl) = false).
    { destruct (string_contains kPadSymbol (FLAGS_m_tr_ss fl)) eqn:Hc; [|reflexivity].
      apply string_contains_In in Hc. contradiction. }
    unfold make_alphabet. rewrite Hc. split; [reflexivity|].
    rewrite bind_ret_l. cbv zeta.
    change (FLAGS_m_tr_ss fl ++ String kPadSymbol "")%string
      with (FLAGS_m_tr_ss fl ++ "#")%string.
    unfold bind.
    destruct (frame_loop E fl (init_detector E fl dflt) (init_recognizer E fl)
                (FLAGS_m_tr_ss fl ++ "#") frames) as [evs [[]|e|]];
      cbn [fst snd ret app]; rewrite ?app_nil_r; reflexivity.
Qed.

Lemma alphabet_pad_symbol_witness :
  main demo (demo_flags "abc#def") [] [blank_frame; text_frame] =
    ([], ExitFailure
           "Symbols set for Text Recongition model must not contain reserved symbol '#'").
Proof.
  refine (proj1 (alphabet_pad_symbol demo (demo_flags "abc#def") []
                   [blank_frame; text_frame] _) _).
  - reflexivity.
  - cbn. tauto.
Defined.

Example alphabet_appended :
  make_alphabet (demo_flags "ABC") = ret "ABC#"%string.
Proof. reflexivity. Qed.

(** ** A recognizer whose output width is not the alphabet length (C2) *)

Lemma crop_stage_silent (E : Collaborators) (fl : Flags)
    (text_detection : Cnn (BlobMap E)) (text_recognition : Cnn Blob)
    (image : Mat) (rect : RotatedRect) :
  (exists x, crop_stage E fl text_detection text_recognition image rect = ret x) \/
  crop_stage E fl text_detection text_recognition image rect = undefined \/
  (crop_stage E fl text_detection text_recognition image rect =
     throw (cv_Exception (roi_error E)) /\
   FLAGS_cc fl = true /\ roi_inside image (center_rect image) = false).
Proof.
  unfold crop_stage.
  destruct (negb (Size2f_eqb (size rect) (mkSize2f 0 0)) && is_initialized text_detection).
  - destruct (cropImage E image _ _ _); [left; eexists; reflexivity|right; now left].
  - destruct (FLAGS_cc fl); [|left; eexists; reflexivity].
    destruct (roi_inside image (center_rect image));
      [left; eexists; reflexivity|right; right; repeat split].
Qed.

Section Mismatch.

Context (E : Collaborators) (fl : Flags).
Context (text_detection : Cnn (BlobMap E)) (text_recognition : Cnn Blob).
Context (kAlphabet : string).
Hypothesis Hinit : is_initialized text_recognition = true.
Hypothesis Hwidth :
  forall crop, exists shape2,
    vec_at (getDims (Infer text_recognition crop)) 2 = Some shape2 /\
    shape2 <> Z.of_nat (String.length kAlphabet).







End Mismatch.


Example width_mismatch_run :
  main demo (demo_flags "abc") [] [blank_frame; text_frame] =
  ([ShowFrame [] 0], ExitFailure mismatch_message).
Proof. vm_compute. reflexivity. Qed.



(** * Further properties *)

(** ** clip and the conversions between int and float *)

(** X1.  [clip] is monotone in its first argument, and applying it twice
    with the same bound changes nothing.  For a non-negative bound it
    returns its argument exactly when the argument already lies in
    [0, max_val]; for a negative bound it returns the bound itself, so that
    for an image without columns the coordinate written would be -1. *)
Theorem clip_monotone_idempotent (x y max_val : Z) :
  (x <= y -> clip x max_val <= clip y max_val) /\
  clip (clip x max_val) max_val = clip x max_val /\
  (0 <= max_val -> (clip x max_val = x <-> 0 <= x <= max_val)) /\
  (max_val < 0 -> clip x max_val = max_val).
Proof. unfold clip. repeat split; lia. Qed.

Lemma clip_monotone_idempotent_witness :
  clip 5 63 <= clip 70 63 /\ clip 17 (0 - 1) = 0 - 1.
Proof.
  split.
  - apply (proj1 (clip_monotone_idempotent 5 70 63)). discriminate.
  - apply (proj2 (proj2 (proj2 (clip_monotone_idempotent 17 0 (0 - 1))))). reflexivity.
Defined.


(** An [int] of magnitude below 2^24 survives the conversion to [float]
    and back. *)
Lemma int_of_float_of_int (n : Z) :
  Z.abs n < 2 ^ 24 -> int_of_float (float_of_int n) = Some n.
Proof.
  intros Hn. rewrite float_of_int_exact by exact Hn.
  assert (Ht : trunc_float (n * FLT_UNIT) = n)
    by (unfold trunc_float; apply Z.quot_mul; unfold FLT_UNIT; lia).
  unfold int_of_float. rewrite Ht.
  assert (Hfit : fits_int n = true).
  { unfold fits_int, INT_MIN, INT_MAX. apply andb_true_iff.
    split; apply Z.leb_le; lia. }
  now rewrite Hfit.
Qed.

(** ** topLeftPoint and cropImage: further properties *)

(** X2.  For a non-empty list of points below the float maximum, the point
    selected by [topLeftPoint] is the element of the list at the index it
    writes. *)
Theorem topLeftPoint_point_at_index (points : list Point2f) :
  points <> [] ->
  Forall below_max points ->
  vec_at points (snd (topLeftPoint points)) = Some (fst (topLeftPoint points)) /\
  In (fst (topLeftPoint points)) points.
Proof.
  intros Hne Hfin.
  assert (Hat : forall j, (j < length points)%nat ->
                  vec_at points (Z.of_nat j) = Some (pt_at points j)).
  { intros j Hj. rewrite vec_at_nat. now apply nth_error_nth'. }
  destruct (topLeftPoint_cases points Hne Hfin)
    as (i & (Hi & _) & [(_ & ->)|(k & (Hk & _) & ->)]).
  - cbn [fst snd]. split; [now apply Hat|now apply pt_at_In].
  - destruct (py (pt_at points k) <? py (pt_at points i)); cbn [fst snd];
      (split; [now apply Hat|now apply pt_at_In]).
Qed.

Lemma topLeftPoint_point_at_index_witness :
  let points := [pointf 125 150; pointf 155 110; pointf 75 50; pointf 45 90] in
  vec_at points (snd (topLeftPoint points)) = Some (fst (topLeftPoint points)) /\
  In (fst (topLeftPoint points)) points.
Proof.
  intros points. apply (topLeftPoint_point_at_index points).
  - discriminate.
  - all_below_max.
Defined.




(** X4.  For the four corners of an upright rectangle with x0 < x1 and
    y0 < y1, given in any order, [topLeftPoint] selects the corner
    (x0, y0). *)
Theorem topLeftPoint_upright_rectangle (points : list Point2f) (x0 y0 x1 y1 : Z) :
  x0 < x1 -> y0 < y1 -> x1 < FLT_MAX -> y1 < FLT_MAX ->
  Permutation points
    [mkPoint2f x0 y1; mkPoint2f x0 y0; mkPoint2f x1 y0; mkPoint2f x1 y1] ->
  fst (topLeftPoint points) = mkPoint2f x0 y0.
Proof.
  intros Hx Hy Hx1 Hy1 Hperm.
  assert (Hin : forall q, In q points ->
            q = mkPoint2f x0 y1 \/ q = mkPoint2f x0 y0 \/
            q = mkPoint2f x1 y0 \/ q = mkPoint2f x1 y1).
  { intros q Hq. apply (Permutation_in _ Hperm) in Hq.
    destruct Hq as [<-|[<-|[<-|[<-|[]]]]]; auto. }
  assert (Hni : forall q, In q [mkPoint2f x0 y1; mkPoint2f x0 y0;
                                mkPoint2f x1 y0; mkPoint2f x1 y1] -> In q points).
  { intros q Hq. now apply (Permutation_in _ (Permutation_sym Hperm)). }
  rewrite (topLeftPoint_left_pair points (mkPoint2f x0 y0) (mkPoint2f x0 y1)).
  - unfold upper_of. cbn [px py]. rewrite Z.ltb_irrefl.
    destruct (Z.ltb_spec y1 y0); [lia|reflexivity].
  - apply Forall_forall. intros q Hq.
    destruct (Hin q Hq) as [->|[->|[->| ->]]]; split; cbn [px py]; lia.
  - apply Hni. cbn [In]. tauto.
  - apply Hni. cbn [In]. tauto.
  - unfold left_pair. apply andb_true_iff. split.
    + destruct (Point2f_eqb_spec (mkPoint2f x0 y0) (mkPoint2f x0 y1)) as [Heq|_];
        [|reflexivity].
      injection Heq. lia.
    + apply forallb_forall. intros q Hq.
      destruct (Hin q Hq) as [->|[->|[->| ->]]].
      * destruct (Point2f_eqb_spec (mkPoint2f x0 y1) (mkPoint2f x0 y1)); [|congruence].
        now rewrite orb_true_r.
      * destruct (Point2f_eqb_spec (mkPoint2f x0 y0) (mkPoint2f x0 y0)); [|congruence].
        reflexivity.
      * cbn [px]. destruct (Z.ltb_spec x0 x1); [|lia]. now rewrite orb_true_r.
      * cbn [px]. destruct (Z.ltb_spec x0 x1); [|lia]. now rewrite orb_true_r.
Qed.

Lemma topLeftPoint_upright_rectangle_witness :
  fst (topLeftPoint [pointf 50 25; pointf 50 35; pointf 30 35; pointf 30 25]) =
  pointf 30 25.
Proof.
  apply (topLeftPoint_upright_rectangle
           [pointf 50 25; pointf 50 35; pointf 30 35; pointf 30 25]
           (float_of_int 30) (float_of_int 25) (float_of_int 50) (float_of_int 35)).
  - vm_compute. reflexivity.
  - vm_compute. reflexivity.
  - vm_compute. reflexivity.
  - vm_compute. reflexivity.
  - change (Permutation
              [pointf 50 25; pointf 50 35; pointf 30 35; pointf 30 25]
              [pointf 30 35; pointf 30 25; pointf 50 25; pointf 50 35]).
    apply Permutation_sym.
    apply (Permutation_app_comm [pointf 30 35; pointf 30 25]
                                [pointf 50 25; pointf 50 35]).
Defined.

Lemma cropImage_in_bounds (E : Collaborators) (image : Mat) (points : list Point2f)
    (target_size : Size) (idx : Z) :
  length points = 4%nat -> 0 <= idx < 4 ->
  exists crop, cropImage E image points target_size idx = Some crop.
Proof.
  intros Hlen Hidx.
  assert (Hat : forall j, 0 <= j < 4 -> exists p, vec_at points j = Some p).
  { intros j Hj. unfold vec_at.
    destruct (Z.ltb_spec j 0); [lia|].
    destruct (nth_error points (Z.to_nat j)) as [p|] eqn:Hn; [now exists p|].
    apply nth_error_None in Hn. lia. }
  assert (H1 : 0 <= Z.rem (idx + 1) 4 < 4) by (apply Z.rem_bound_pos; lia).
  assert (H2 : 0 <= Z.rem (idx + 2) 4 < 4) by (apply Z.rem_bound_pos; lia).
  destruct (Hat idx Hidx) as (p0 & Hp0).
  destruct (Hat _ H1) as (p1 & Hp1).
  destruct (Hat _ H2) as (p2 & Hp2).
  unfold cropImage. rewrite Hp0, Hp1, Hp2. eexists. reflexivity.
Qed.

(** X5.  On a list of 4 points, [cropImage] is defined exactly for the
    indices 0, 1, 2, 3: any other index reads outside the vector. *)
Theorem cropImage_defined_iff (E : Collaborators) (image : Mat)
    (points : list Point2f) (target_size : Size) (idx : Z) :
  length points = 4%nat ->
  (cropImage E image points target_size idx <> None <-> 0 <= idx < 4).
Proof.
  intros Hlen. split.
  - intros Hdef.
    destruct (Z.ltb_spec idx 0) as [Hneg|Hpos].
    + exfalso. apply Hdef. unfold cropImage, vec_at at 1.
      destruct (Z.ltb_spec idx 0); [reflexivity|lia].
    + destruct (Z.ltb_spec idx 4) as [Hlt|Hge]; [lia|].
      exfalso. apply Hdef. unfold cropImage, vec_at at 1.
      destruct (Z.ltb_spec idx 0); [reflexivity|].
      assert (Hnone : nth_error points (Z.to_nat idx) = None)
        by (apply nth_error_None; lia).
      rewrite Hnone. reflexivity.
  - intros Hidx.
    destruct (cropImage_in_bounds E image points target_size idx Hlen Hidx) as [crop ->].
    discriminate.
Qed.

Lemma cropImage_defined_iff_witness :
  cropImage demo (mkMat 64 48 [])
    [pointf 30 35; pointf 30 25; pointf 50 25; pointf 50 35] (mkSize 120 32) 4 <> None
  <-> 0 <= 4 < 4.
Proof.
  apply (cropImage_defined_iff demo (mkMat 64 48 [])
           [pointf 30 35; pointf 30 25; pointf 50 25; pointf 50 35] (mkSize 120 32) 4).
  reflexivity.
Defined.

(** ** The crop of a region *)

Lemma floatPointsFromRotatedRect_length (E : Collaborators) (rect : RotatedRect) :
  length (floatPointsFromRotatedRect E rect) = 4%nat.
Proof.
  unfold floatPointsFromRotatedRect.
  destruct (RotatedRect_points E rect) as [[[v0 v1] v2] v3]. reflexivity.
Qed.

Lemma topLeftPoint_idx_range (points : list Point2f) :
  points <> [] ->
  Forall below_max points ->
  0 <= snd (topLeftPoint points) < Z.of_nat (length points).
Proof.
  intros Hne Hfin.
  destruct (topLeftPoint_cases points Hne Hfin)
    as (i & (Hi & _) & [(_ & ->)|(k & (Hk & _) & ->)]).
  - cbn [snd]. lia.
  - destruct (py (pt_at points k) <? py (pt_at points i)); cbn [snd]; lia.
Qed.

(** X6.  When the four vertices of a rectangle are below the float maximum,
    the crop of the region reads no vector out of bounds and writes
    nothing.  It returns in the rectification branch and in the whole-image
    branch; in the centre-crop branch (a zero rectangle or no detector,
    under -cc) it returns when the window lies inside the image and throws
    the [cv::Exception] of [image(r)] when it does not. *)
Theorem crop_stage_defined (E : Collaborators) (fl : Flags)
    (text_detection : Cnn (BlobMap E)) (text_recognition : Cnn Blob)
    (image : Mat) (rect : RotatedRect) :
  Forall below_max (floatPointsFromRotatedRect E rect) ->
  let rectified :=
    negb (Size2f_eqb (size rect) (mkSize2f 0 0)) && is_initialized text_detection in
  let outside :=
    negb rectified && FLAGS_cc fl && negb (roi_inside image (center_rect image)) in
  (outside = false ->
   exists x, crop_stage E fl text_detection text_recognition image rect = ret x) /\
  (outside = true ->
   crop_stage E fl text_detection text_recognition image rect =
     throw (cv_Exception (roi_error E))).
Proof.
  intros Hfin rectified outside. subst outside rectified. unfold crop_stage.
  destruct (negb (Size2f_eqb (size rect) (mkSize2f 0 0)) && is_initialized text_detection).
  - cbn [negb andb]. split; [intros _|discriminate].
    pose proof (floatPointsFromRotatedRect_length E rect) as Hlen.
    assert (Hne : floatPointsFromRotatedRect E rect <> [])
      by (intros Hnil; rewrite Hnil in Hlen; discriminate).
    pose proof (topLeftPoint_idx_range _ Hne Hfin) as Hidx. rewrite Hlen in Hidx.
    destruct (cropImage_in_bounds E image _ (input_size text_recognition) _ Hlen Hidx)
      as [crop ->].
    eexists. reflexivity.
  - cbn [negb andb]. destruct (FLAGS_cc fl); cbn [andb].
    + destruct (roi_inside image (center_rect image)); cbn [negb].
      * split; [intros _; eexists; reflexivity|discriminate].
      * split; [discriminate|reflexivity].
    + split; [intros _; eexists; reflexivity|discriminate].
Qed.

Lemma crop_stage_defined_witness :
  exists x,
    crop_stage demo (demo_flags symbols36) (init_detector demo (demo_flags symbols36) [])
      (init_recognizer demo (demo_flags symbols36)) (mkMat 64 48 [255])
      (upright 40 30 20 10) = ret x.
Proof.
  refine (proj1 (crop_stage_defined demo (demo_flags symbols36)
                   (init_detector demo (demo_flags symbols36) [])
                   (init_recognizer demo (demo_flags symbols36)) (mkMat 64 48 [255])
                   (upright 40 30 20 10) _) _).
  - all_below_max.
  - reflexivity.
Defined.

Example crop_stage_window_outside :
  crop_stage demo
    (mkFlags false "video.mp4" "" "r.xml" symbols36
             (1 # 5) (4 # 5) (4 # 5) (-1) 1280 768 true true false)
    (Cnn_default []) (init_recognizer demo (demo_flags symbols36))
    (mkMat 1000 10 []) (mkRotatedRect (mkPoint2f 0 0) (mkSize2f 0 0) 0) =
  throw (cv_Exception (roi_error demo)).
Proof. reflexivity. Qed.

(** X7.  Whenever the crop of a region is defined, the anchor index it
    returns is a valid index of the points it returns, unless there are no
    points; the label placement of [annotate_stage], which reads
    [points[top_left_point_idx]], is therefore defined for every string. *)
Theorem crop_stage_anchor_valid (E : Collaborators) (fl : Flags)
    (text_detection : Cnn (BlobMap E)) (text_recognition : Cnn Blob)
    (image : Mat) (rect : RotatedRect)
    (cropped_text : Mat) (points : list Point2f) (idx : Z) (drawn : list Annotation) :
  crop_stage E fl text_detection text_recognition image rect =
    ret (cropped_text, points, idx, drawn) ->
  (points = [] \/ exists p, vec_at points idx = Some p) /\
  forall res, exists more, annotate_stage fl text_recognition points idx res = ret more.
Proof.
  intros Hcrop.
  assert (Hvalid : points = [] \/ exists p, vec_at points idx = Some p).
  { unfold crop_stage in Hcrop.
    destruct (negb (Size2f_eqb (size rect) (mkSize2f 0 0)) &&
              is_initialized text_detection).
    - destruct (cropImage E image (floatPointsFromRotatedRect E rect)
                  (input_size text_recognition)
                  (snd (topLeftPoint (floatPointsFromRotatedRect E rect)))) eqn:Hc;
        [|discriminate Hcrop].
      injection Hcrop as _ <- <- _. right.
      unfold cropImage in Hc.
      destruct (vec_at (floatPointsFromRotatedRect E rect)
                  (snd (topLeftPoint (floatPointsFromRotatedRect E rect)))) as [p|];
        [now exists p|discriminate Hc].
    - destruct (FLAGS_cc fl).
      + destruct (roi_inside image (center_rect image)); [|discriminate Hcrop].
        injection Hcrop as _ <- <- _. right. eexists. reflexivity.
      + injection Hcrop as _ <- <- _. now left. }
  split; [exact Hvalid|].
  intros res. unfold annotate_stage.
  destruct (negb (FLAGS_no_show fl) &&
            (negb (string_empty res) || negb (is_initialized text_recognition)));
    [|eexists; reflexivity].
  destruct Hvalid as [->|[p Hp]].
  - cbn [negb andb]. eexists. reflexivity.
  - rewrite Hp.
    destruct (negb match points with [] => true | _ :: _ => false end &&
              negb (string_empty res)); eexists; reflexivity.
Qed.

Lemma crop_stage_anchor_valid_witness :
  exists more,
    annotate_stage (demo_flags symbols36) (init_recognizer demo (demo_flags symbols36))
      [pointf 30 35; pointf 30 25; pointf 50 25; pointf 50 35] 1 "AB" = ret more.
Proof.
  refine (proj2 (crop_stage_anchor_valid demo (demo_flags symbols36)
                   (init_detector demo (demo_flags symbols36) [])
                   (init_recognizer demo (demo_flags symbols36)) (mkMat 64 48 [255])
                   (upright 40 30 20 10) (mkMat 120 32 [])
                   [pointf 30 35; pointf 30 25; pointf 50 25; pointf 50 35] 1 [] _) "AB"%string).
  vm_compute. reflexivity.
Defined.

(** X8.  For an image with non-negative dimensions the window of the
    fixed centre crop is cols/20 wide and cols/40 high and lies inside the
    image horizontally; it lies inside the image vertically exactly when
    the image has at least cols/40 rows. *)
Theorem center_rect_inside (image : Mat) :
  0 <= cols image -> 0 <= rows image ->
  let r := center_rect image in
  rect_width r = cols image / 20 /\
  rect_height r = cols image / 40 /\
  0 <= rect_x r /\ rect_x r + rect_width r <= cols image /\
  ((0 <= rect_y r /\ rect_y r + rect_height r <= rows image) <->
   rect_height r <= rows image).
Proof.
  intros Hc Hr. unfold center_rect. cbn [rect_width rect_height rect_x rect_y].
  assert (Hw : Z.quot (cols image) 20 = cols image / 20)
    by (apply Z.quot_div_nonneg; lia).
  rewrite Hw.
  assert (Hh : Z.quot (cols image / 20) 2 = cols image / 40).
  { rewrite Z.quot_div_nonneg by (try apply Z.div_pos; lia).
    rewrite Z.div_div by lia. reflexivity. }
  rewrite Hh.
  assert (Hx : Z.quot (cols image - cols image / 20) 2 = (cols image - cols image / 20) / 2).
  { apply Z.quot_div_nonneg; [|lia].
    assert (cols image / 20 <= cols image) by (apply Z.div_le_upper_bound; lia). lia. }
  rewrite Hx.
  assert (Hwle : 0 <= cols image / 20 <= cols image).
  { split; [apply Z.div_pos; lia|apply Z.div_le_upper_bound; lia]. }
  assert (Hhge : 0 <= cols image / 40) by (apply Z.div_pos; lia).
  split; [reflexivity|]. split; [reflexivity|].
  split; [apply Z.div_pos; lia|].
  split.
  - pose proof (Z.mul_div_le (cols image - cols image / 20) 2). lia.
  - set (h := cols image / 40) in *. set (d := rows image - h).
    pose proof (Z.quot_rem' d 2) as Hqr.
    pose proof (Z.rem_bound_abs d 2) as Hb.
    destruct (Z_le_gt_dec 0 d) as [Hd|Hd].
    + pose proof (Z.rem_nonneg d 2) as Hn.
      pose proof (Z.quot_pos d 2). subst d. lia.
    + pose proof (Z.rem_nonpos d 2) as Hn.
      assert (Z.quot d 2 <= 0) by (apply Z.quot_le_upper_bound; lia || subst d; lia).
      subst d. lia.
Qed.

Lemma center_rect_inside_witness :
  let r := center_rect (mkMat 1000 10 []) in
  (0 <= rect_y r /\ rect_y r + rect_height r <= 10) <-> rect_height r <= 10.
Proof.
  intros r.
  refine (proj2 (proj2 (proj2 (proj2 (center_rect_inside (mkMat 1000 10 []) _ _))))).
  - discriminate.
  - discriminate.
Defined.

Example center_rect_wide_image :
  center_rect (mkMat 1000 10 []) = mkRect 475 (-7) 50 25.
Proof. reflexivity. Qed.

Lemma quot_2_bounds (d : Z) :
  (0 <= d -> 0 <= Z.quot d 2 <= d) /\ (d <= 0 -> d <= Z.quot d 2 <= 0).
Proof.
  pose proof (Z.quot_rem' d 2) as Hqr.
  pose proof (Z.rem_bound_abs d 2) as Hb.
  split; intros Hd.
  - pose proof (Z.rem_nonneg d 2). pose proof (Z.quot_pos d 2). lia.
  - pose proof (Z.rem_nonpos d 2). lia.
Qed.

(** X9.  In the centre-crop branch (a zero rectangle or no detector, under
    -cc) of an image with fewer than 2^24 columns and rows whose window lies
    inside the image, the crop returns the window, the region has one point,
    the top left corner of the window, and the coordinates written for it
    under -r are exactly the x and the y of that corner. *)
Theorem center_crop_raw_coords (E : Collaborators) (fl : Flags)
    (text_detection : Cnn (BlobMap E)) (text_recognition : Cnn Blob)
    (image : Mat) (rect : RotatedRect) :
  0 < cols image < 2 ^ 24 ->
  0 < rows image < 2 ^ 24 ->
  FLAGS_cc fl = true ->
  Size2f_eqb (size rect) (mkSize2f 0 0) = true \/ is_initialized text_detection = false ->
  roi_inside image (center_rect image) = true ->
  exists points,
    crop_stage E fl text_detection text_recognition image rect =
      ret (Mat_roi E image (center_rect image), points, 0,
           [DrawRect (center_rect image)]) /\
    length points = 1%nat /\
    raw_coords image points =
      Some (string_of_Z (rect_x (center_rect image)) ++ "," ++
            string_of_Z (rect_y (center_rect image)))%string.
Proof.
  intros Hc Hr Hcc Hzero Hroi.
  assert (Hbranch : negb (Size2f_eqb (size rect) (mkSize2f 0 0)) &&
                    is_initialized text_detection = false).
  { destruct Hzero as [-> | ->]; [reflexivity|apply andb_false_r]. }
  unfold crop_stage. rewrite Hbranch, Hcc, Hroi.
  eexists. split; [reflexivity|]. split; [reflexivity|].
  cbn [raw_coords px py].
  unfold roi_inside in Hroi.
  repeat (apply andb_true_iff in Hroi as [Hroi ?]).
  repeat match goal with H : (_ <=? _) = true |- _ => apply Z.leb_le in H end.
  assert (Hx : rect_x (center_rect image) <= cols image - 1).
  { unfold center_rect. cbn [rect_x].
    assert (0 <= Z.quot (cols image) 20)
      by (rewrite Z.quot_div_nonneg by lia; apply Z.div_pos; lia).
    set (d := cols image - Z.quot (cols image) 20) in *.
    destruct (quot_2_bounds d) as [Hpos Hneg].
    pose proof (Z.quot_rem' d 2). pose proof (Z.rem_bound_abs d 2).
    destruct (Z_le_gt_dec 0 d).
    - pose proof (Z.rem_nonneg d 2). subst d. lia.
    - subst d. lia. }
  assert (Hy : rect_y (center_rect image) <= rows image - 1).
  { revert H1 H0 H. unfold center_rect. cbn [rect_y rect_height].
    set (h := Z.quot (Z.quot (cols image) 20) 2).
    set (d := rows image - h). intros Hy0 Hh0 Hyh.
    destruct (quot_2_bounds d) as [Hpos Hneg].
    pose proof (Z.quot_rem' d 2). pose proof (Z.rem_bound_abs d 2).
    destruct (Z_le_gt_dec 0 d).
    - pose proof (Z.rem_nonneg d 2). subst d. lia.
    - subst d. lia. }
  rewrite !int_of_float_of_int by lia.
  unfold clip. rewrite append_nil_r.
  replace (Z.min (Z.max (rect_x (center_rect image)) 0) (cols image - 1))
    with (rect_x (center_rect image)) by lia.
  replace (Z.min (Z.max (rect_y (center_rect image)) 0) (rows image - 1))
    with (rect_y (center_rect image)) by lia.
  reflexivity.
Qed.

Lemma center_crop_raw_coords_witness :
  exists points,
    crop_stage demo
      (mkFlags false "video.mp4" "" "r.xml" symbols36
               (1 # 5) (4 # 5) (4 # 5) (-1) 1280 768 true true false)
      (Cnn_default []) (init_recognizer demo (demo_flags symbols36))
      (mkMat 1000 100 []) (mkRotatedRect (mkPoint2f 0 0) (mkSize2f 0 0) 0) =
      ret (Mat_roi demo (mkMat 1000 100 []) (center_rect (mkMat 1000 100 [])), points, 0,
           [DrawRect (center_rect (mkMat 1000 100 []))]) /\
    length points = 1%nat /\
    raw_coords (mkMat 1000 100 []) points = Some "475,37"%string.
Proof.
  apply (center_crop_raw_coords demo
           (mkFlags false "video.mp4" "" "r.xml" symbols36
                    (1 # 5) (4 # 5) (4 # 5) (-1) 1280 768 true true false)
           (Cnn_default []) (init_recognizer demo (demo_flags symbols36))
           (mkMat 1000 100 []) (mkRotatedRect (mkPoint2f 0 0) (mkSize2f 0 0) 0)).
  - split; reflexivity.
  - split; reflexivity.
  - reflexivity.
  - left. reflexivity.
  - reflexivity.
Defined.

(** ** The cap, the alphabet, the escape key *)

(** X10.  Whatever [std::sort] does, for fewer than 2^31 rectangles and a
    non-negative cap N the forwarded list has at most N rectangles, and
    applying the cap a second time changes nothing. *)
Theorem cap_rects_idempotent (E : Collaborators) (N : Z) (rects : list RotatedRect) :
  Z.of_nat (length rects) < 2 ^ 31 ->
  (0 <= N -> Z.of_nat (length (cap_rects E N rects)) <= N) /\
  cap_rects E N (cap_rects E N rects) = cap_rects E N rects.
Proof.
  intros Hlen.
  assert (Hcap : 0 <= N -> Z.of_nat (length (cap_rects E N rects)) <= N).
  { intros HN. unfold cap_rects. rewrite static_cast_int_small by lia.
    destruct (Z.leb_spec 0 N); [|lia]. cbn [andb].
    destruct (Z.ltb_spec N (Z.of_nat (length rects))); [|lia].
    pose proof (firstn_le_length (Z.to_nat N) (std_sort E (area_gt E) rects)). lia. }
  split; [exact Hcap|].
  destruct (Z.leb_spec 0 N) as [HN|HN].
  - specialize (Hcap HN).
    assert (Hsmall : Z.of_nat (length (cap_rects E N rects)) < 2 ^ 31).
    { unfold cap_rects in *. rewrite static_cast_int_small in * by lia.
      destruct ((0 <=? N) && (N <? Z.of_nat (length rects))) eqn:Hc; [|exact Hlen].
      apply andb_true_iff in Hc as [_ Hc]. apply Z.ltb_lt in Hc. lia. }
    unfold cap_rects at 1. rewrite static_cast_int_small by lia.
    destruct (Z.ltb_spec N (Z.of_nat (length (cap_rects E N rects)))); [lia|].
    now rewrite andb_false_r.
  - unfold cap_rects.
    destruct (Z.leb_spec 0 N); [lia|]. reflexivity.
Qed.

Lemma cap_rects_idempotent_witness :
  let rects := [upright 10 10 4 2; upright 20 20 8 6; upright 30 30 5 5] in
  cap_rects demo 2 (cap_rects demo 2 rects) = cap_rects demo 2 rects.
Proof.
  intros rects.
  refine (proj2 (cap_rects_idempotent demo 2 rects _)). reflexivity.
Defined.

(** X11.  With [std::sort] meeting its postcondition and an initialised
    detector, every rectangle a frame is processed with is one that
    [postProcess] returned, and there are no more of them than it
    returned. *)
Theorem frame_rects_from_detector (E : Collaborators) (fl : Flags)
    (text_detection : Cnn (BlobMap E)) (image : Mat) :
  sort_contract E ->
  is_initialized text_detection = true ->
  let found := postProcess E (Infer text_detection image) (Mat_size image)
                 (FLAGS_cls_pixel_thr fl) (FLAGS_link_pixel_thr fl) in
  (forall rect, In rect (frame_rects E fl text_detection image) -> In rect found) /\
  (length (frame_rects E fl text_detection image) <= length found)%nat.
Proof.
  intros Hsort Hinit found.
  unfold frame_rects, detect_rects. rewrite Hinit. fold found.
  unfold cap_rects.
  destruct ((0 <=? FLAGS_max_rect_num fl) &&
            (FLAGS_max_rect_num fl <? static_cast_int (Z.of_nat (length found)))).
  - destruct (Hsort found) as [Hperm _]. split.
    + intros rect Hin.
      apply (Permutation_in _ (Permutation_sym Hperm)).
      rewrite <- (firstn_skipn (Z.to_nat (FLAGS_max_rect_num fl))).
      apply in_or_app. left. exact Hin.
    + rewrite (Permutation_length Hperm), length_firstn. lia.
  - split; [tauto|lia].
Qed.

Lemma frame_rects_from_detector_witness :
  (length (frame_rects demo (demo_flags symbols36)
             (init_detector demo (demo_flags symbols36) [])
             (frame_image text_frame)) <= 1)%nat.
Proof.
  refine (proj2 (frame_rects_from_detector demo (demo_flags symbols36)
                   (init_detector demo (demo_flags symbols36) [])
                   (frame_image text_frame) _ _)).
  - apply insertion_sort_contract. reflexivity.
  - reflexivity.
Defined.

Lemma list_ascii_of_string_app (s t : string) :
  list_ascii_of_string (s ++ t) = list_ascii_of_string s ++ list_ascii_of_string t.
Proof. induction s as [|c s IH]; cbn; [reflexivity|now rewrite IH]. Qed.

Lemma string_length_list (s : string) :
  String.length s = length (list_ascii_of_string s).
Proof. induction s as [|c s IH]; cbn; [reflexivity|now rewrite IH]. Qed.

(** X12.  When [make_alphabet] succeeds, the internal alphabet is one
    symbol longer than the symbols given, its last symbol is the pad
    symbol, and the pad symbol occurs exactly once in it. *)
Theorem make_alphabet_pad_once (fl : Flags) (kAlphabet : string) :
  make_alphabet fl = ret kAlphabet ->
  String.length kAlphabet = S (String.length (FLAGS_m_tr_ss fl)) /\
  String.get (String.length (FLAGS_m_tr_ss fl)) kAlphabet = Some kPadSymbol /\
  count_occ ascii_dec (list_ascii_of_string kAlphabet) kPadSymbol = 1%nat.
Proof.
  unfold make_alphabet.
  destruct (string_contains kPadSymbol (FLAGS_m_tr_ss fl)) eqn:Hc; [discriminate|].
  intros Heq. injection Heq as <-.
  set (ss := FLAGS_m_tr_ss fl) in *.
  split; [|split].
  - rewrite !string_length_list, list_ascii_of_string_app, length_app. cbn. lia.
  - clear Hc. induction ss as [|c ss IH]; [reflexivity|exact IH].
  - rewrite list_ascii_of_string_app, count_occ_app.
    assert (Hno : count_occ ascii_dec (list_ascii_of_string ss) kPadSymbol = 0%nat).
    { apply count_occ_not_In. intros Hin. apply string_contains_In in Hin. congruence. }
    rewrite Hno. reflexivity.
Qed.

Lemma make_alphabet_pad_once_witness :
  String.length "abc#" = 4%nat /\
  String.get 3 "abc#" = Some kPadSymbol /\
  count_occ ascii_dec (list_ascii_of_string "abc#") kPadSymbol = 1%nat.
Proof.
  apply (make_alphabet_pad_once (demo_flags "abc") "abc#"). reflexivity.
Defined.


(** ** setLabel and the report after the loop *)

(** X14.  Whatever the anchor point, [setLabel] puts the text at a position
    with x >= 0 and y >= the height of the text, so that the filled box
    behind it has its left edge at x >= 0 and its top edge at y >= 0; an
    anchor that already satisfies both bounds is used as it is. *)
Theorem setLabel_box_inside (getTextSize : string -> Size * Z) (label : string)
    (p : Point) :
  0 <= height (fst (getTextSize label)) ->
  exists pt1 pt2 org,
    setLabel getTextSize label p = [FilledRectangle pt1 pt2; PutText label org] /\
    0 <= pt_x org /\ height (fst (getTextSize label)) <= pt_y org /\
    pt_x pt1 = pt_x org /\ 0 <= pt_x pt1 /\
    pt_y pt2 = pt_y org - height (fst (getTextSize label)) /\ 0 <= pt_y pt2 /\
    pt_x org = Z.max 0 (pt_x p) /\
    (0 <= pt_x p -> height (fst (getTextSize label)) <= pt_y p -> org = p).
Proof.
  intros Hh. unfold setLabel.
  destruct (getTextSize label) as [text_size baseline]. cbn [fst] in *.
  eexists. eexists. eexists. split; [reflexivity|].
  cbn [Point_add pt_x pt_y].
  repeat split; try lia.
  intros Hx Hy. destruct p as [x y]. cbn [pt_x pt_y] in *.
  rewrite Z.max_r, Z.max_r by lia. reflexivity.
Qed.

Lemma setLabel_box_inside_witness :
  exists pt1 pt2 org,
    setLabel (fun _ => (mkSize 40 12, 4)) "AB" (mkPoint (-5) 3) =
      [FilledRectangle pt1 pt2; PutText "AB" org] /\
    0 <= pt_x org /\ 12 <= pt_y org /\
    pt_x pt1 = pt_x org /\ 0 <= pt_x pt1 /\
    pt_y pt2 = pt_y org - 12 /\ 0 <= pt_y pt2 /\
    pt_x org = Z.max 0 (-5) /\
    (0 <= -5 -> 12 <= 3 -> org = mkPoint (-5) 3).
Proof.
  apply (setLabel_box_inside (fun _ => (mkSize 40 12, 4)) "AB" (mkPoint (-5) 3)).
  discriminate.
Defined.

Example setLabel_clamped :
  setLabel (fun _ => (mkSize 40 12, 4)) "AB" (mkPoint (-5) 3) =
  [FilledRectangle (mkPoint 0 16) (mkPoint 40 0); PutText "AB" (mkPoint 0 12)].
Proof. reflexivity. Qed.

Lemma near_zero_0 (t : Q) : (t == 0)%Q -> near_zero t = true.
Proof.
  intros Ht. unfold near_zero.
  destruct (Qle_bool DBL_EPSILON (Qabs t)) eqn:Hle; [|reflexivity].
  apply Qle_bool_iff in Hle. rewrite Ht in Hle. exfalso.
  revert Hle. cbn. unfold Qle. cbn. lia.
Qed.

(** X15.  The report after the loop ends normally exactly when -r is given
    or every counter it reads is at least the double epsilon: the
    post-processing time of the detector if the detector was called, the
    post-processing time of the recognizer and the crop time if the
    recognizer was called.  Under -r it writes nothing. *)
Theorem report_statistics_ends_normally (fl : Flags) (td_ncalls tr_ncalls : Z)
    (td_time tr_time crop_time : Q) :
  (snd (report_statistics fl td_ncalls tr_ncalls td_time tr_time crop_time) = Val tt <->
   FLAGS_r fl = true \/
   ((td_ncalls = 0 \/ near_zero td_time = false) /\
    (tr_ncalls = 0 \/ (near_zero tr_time = false /\ near_zero crop_time = false)))) /\
  (FLAGS_r fl = true ->
   report_statistics fl td_ncalls tr_ncalls td_time tr_time crop_time = ([], Val tt)).
Proof.
  unfold report_statistics.
  destruct (FLAGS_r fl); cbn [negb andb].
  - rewrite !andb_false_r. cbn [snd fst]. split; [|reflexivity]. split; auto.
  - rewrite !andb_true_r. split; [|discriminate].
    destruct (Z.eqb_spec td_ncalls 0) as [Htd|Htd];
      destruct (Z.eqb_spec tr_ncalls 0) as [Htr|Htr]; cbn [negb snd fst];
      try destruct (near_zero td_time); cbn [snd fst];
      try destruct (near_zero tr_time); cbn [snd fst];
      try destruct (near_zero crop_time); cbn [snd fst];
      split; intros H; try reflexivity; try discriminate H; try tauto;
      try (right; split; [tauto|tauto]);
      destruct H as [H|[[H1|H1] [H2|[H2 H3]]]];
      try discriminate; try contradiction; try tauto.
Qed.

Lemma report_statistics_ends_normally_witness :
  report_statistics (demo_flags symbols36) 12 12 0 0 0 = ([], Val tt).
Proof.
  apply (proj2 (report_statistics_ends_normally (demo_flags symbols36) 12 12 0 0 0)).
  reflexivity.
Defined.


(** X16.  Without -r, when the recognizer has been called and the crop time
    is still zero, the report raises a logic error: the run ends in
    failure after all frames have been processed. *)
Theorem report_statistics_zero_crop_time (fl : Flags) (td_ncalls tr_ncalls : Z)
    (td_time tr_time crop_time : Q) :
  FLAGS_r fl = false ->
  tr_ncalls <> 0 ->
  (crop_time == 0)%Q ->
  exists what,
    snd (report_statistics fl td_ncalls tr_ncalls td_time tr_time crop_time) =
    Throw (logic_error what).
Proof.
  intros Hr Htr Hcrop. unfold report_statistics.
  rewrite Hr, (near_zero_0 crop_time Hcrop). cbn [negb]. rewrite !andb_true_r.
  destruct (Z.eqb_spec tr_ncalls 0); [contradiction|]. cbn [negb].
  destruct (negb (td_ncalls =? 0)); [destruct (near_zero td_time)|];
    cbn [snd fst]; try (eexists; reflexivity);
    destruct (near_zero tr_time); cbn [snd]; eexists; reflexivity.
Qed.

Lemma report_statistics_zero_crop_time_witness :
  exists what,
    snd (report_statistics
           (mkFlags false "video.mp4" "" "text-recognition.xml" symbols36
                    (1 # 5) (4 # 5) (4 # 5) (-1) 1280 768 false false false)
           0 12 0 (350 # 1) 0) = Throw (logic_error what).
Proof.
  apply (report_statistics_zero_crop_time
           (mkFlags false "video.mp4" "" "text-recognition.xml" symbols36
                    (1 # 5) (4 # 5) (4 # 5) (-1) 1280 768 false false false)
           0 12 0 (350 # 1) 0).
  - reflexivity.
  - discriminate.
  - reflexivity.
Defined.

(** ** The events and the counter of the frame loop *)

Lemma bind_throw {A B : Type} (e : exn) (k : A -> M B) : bind (throw e) k = throw e.
Proof. reflexivity. Qed.

Lemma bind_undefined {A B : Type} (k : A -> M B) : bind undefined k = undefined.
Proof. reflexivity. Qed.

Lemma bind_pair {A B : Type} (evs : list Event) (r : Result A) (k : A -> M B) :
  bind (evs, r) k =
  match r with
  | Val a => (evs ++ fst (k a), snd (k a))
  | Throw e => (evs, Throw e)
  | Undefined => (evs, Undefined)
  end.
Proof. reflexivity. Qed.

Lemma annotate_stage_silent (fl : Flags) (text_recognition : Cnn Blob)
    (points : list Point2f) (idx : Z) (res : string) :
  (exists more, annotate_stage fl text_recognition points idx res = ret more) \/
  annotate_stage fl text_recognition points idx res = undefined.
Proof.
  unfold annotate_stage.
  destruct (negb (FLAGS_no_show fl) && _); [|left; eexists; reflexivity].
  destruct (negb _ && negb (string_empty res)); [|left; eexists; reflexivity].
  destruct (vec_at points idx); [left; eexists; reflexivity|now right].
Qed.

Lemma recognition_stage_cases (E : Collaborators) (fl : Flags)
    (text_recognition : Cnn Blob) (kAlphabet : string) (cropped_text : Mat) (n : Z) :
  (is_initialized text_recognition = true /\
   recognition_stage E fl text_recognition kAlphabet cropped_text n = undefined) \/
  (is_initialized text_recognition = true /\
   recognition_stage E fl text_recognition kAlphabet cropped_text n =
     throw (runtime_error mismatch_message)) \/
  (exists res conf n',
     recognition_stage E fl text_recognition kAlphabet cropped_text n =
       ret (res, conf, n') /\
     n' = n + (if string_empty res then 0 else 1) /\
     (is_initialized text_recognition = false -> res = EmptyString)).
Proof.
  unfold recognition_stage.
  destruct (is_initialized text_recognition) eqn:Hinit.
  - destruct (vec_at (getDims (Infer text_recognition cropped_text)) 2) as [shape2|];
      [|now left].
    destruct (negb (shape2 =? Z.of_nat (String.length kAlphabet)));
      [right; left; now split|].
    destruct (vec_at (getDims (Infer text_recognition cropped_text)) 0) as [shape0|];
      [|now left].
    destruct (CTCGreedyDecoder E _ kAlphabet kPadSymbol) as [res conf].
    right; right.
    exists (if Qle_bool (FLAGS_thr fl) conf then res else EmptyString), conf.
    eexists. split; [reflexivity|]. split; [|discriminate].
    destruct (string_empty (if Qle_bool (FLAGS_thr fl) conf then res else "")); reflexivity.
  - right; right. exists EmptyString, 1%Q, n.
    split; [reflexivity|]. split; [cbn; lia|reflexivity].
Qed.

Lemma process_rect_cases (E : Collaborators) (fl : Flags)
    (text_detection : Cnn (BlobMap E)) (text_recognition : Cnn Blob)
    (kAlphabet : string) (image : Mat) (rect : RotatedRect) (st : list Annotation * Z) :
  exists evs r,
    process_rect E fl text_detection text_recognition kAlphabet image rect st = (evs, r) /\
    (evs = [] \/ (FLAGS_r fl = true /\ exists line, evs = [RawLine line])) /\
    match r with
    | Val st' =>
        (FLAGS_r fl = true -> exists line, evs = [RawLine line]) /\
        snd st <= snd st' <= snd st + 1 /\
        (is_initialized text_recognition = false -> snd st' = snd st)
    | Throw e =>
        evs = [] /\
        ((is_initialized text_recognition = true /\ e = runtime_error mismatch_message) \/
         (e = cv_Exception (roi_error E) /\ FLAGS_cc fl = true /\
          roi_inside image (center_rect image) = false))
    | Undefined => True
    end.
Proof.
  unfold process_rect.
  destruct (crop_stage_silent E fl text_detection text_recognition image rect)
    as [[[[[cropped points] idx] drawn] ->]|[ -> |[ -> [Hcc Hroi]]]].
  2: { rewrite bind_undefined. exists [], Undefined. repeat split. now left. }
  2: { rewrite bind_throw. exists [], (Throw (cv_Exception (roi_error E))).
       split; [reflexivity|]. split; [now left|]. split; [reflexivity|].
       right. now repeat split. }
  rewrite bind_ret_l.
  destruct (recognition_stage_cases E fl text_recognition kAlphabet cropped (snd st))
    as [[Hi ->]|[[Hi ->]|(res & conf & n' & -> & Hn & Hres)]].
  - rewrite bind_undefined. exists [], Undefined. repeat split. now left.
  - rewrite bind_throw. exists [], (Throw (runtime_error mismatch_message)).
    split; [reflexivity|]. split; [now left|]. split; [reflexivity|]. left. now split.
  - rewrite bind_ret_l.
    assert (Hcount : snd st <= n' <= snd st + 1 /\
                     (is_initialized text_recognition = false -> n' = snd st)).
    { split; [destruct (string_empty res); lia|].
      intros Hi. rewrite (Hres Hi) in Hn. cbn in Hn. lia. }
    destruct (FLAGS_r fl).
    + destruct (raw_line text_recognition image points res) as [line|].
      * unfold emit. rewrite bind_pair.
        destruct (annotate_stage_silent fl text_recognition points idx res)
          as [[more ->]| ->].
        -- rewrite bind_ret_l. cbn [ret fst snd]. rewrite app_nil_r.
           eexists. eexists. split; [reflexivity|].
           split; [right; split; [reflexivity|eexists; reflexivity]|].
           split; [intros _; eexists; reflexivity|]. cbn [snd]. exact Hcount.
        -- rewrite bind_undefined. cbn [undefined fst snd]. rewrite app_nil_r.
           eexists. eexists. split; [reflexivity|].
           split; [right; split; [reflexivity|eexists; reflexivity]|exact I].
      * rewrite bind_undefined. exists [], Undefined. repeat split. now left.
    + unfold emit. rewrite bind_pair.
      destruct (annotate_stage_silent fl text_recognition points idx res)
        as [[more ->]| ->].
      * rewrite bind_ret_l. cbn [ret fst snd app].
        eexists. eexists. split; [reflexivity|].
        split; [now left|]. split; [discriminate|]. cbn [snd]. exact Hcount.
      * rewrite bind_undefined. cbn [undefined fst snd app].
        eexists. eexists. split; [reflexivity|]. split; [now left|exact I].
Qed.

Lemma process_rects_cases (E : Collaborators) (fl : Flags)
    (text_detection : Cnn (BlobMap E)) (text_recognition : Cnn Blob)
    (kAlphabet : string) (image : Mat) (rects : list RotatedRect)
    (st : list Annotation * Z) :
  exists evs r,
    process_rects E fl text_detection text_recognition kAlphabet image rects st
      = (evs, r) /\
    Forall (fun e => is_RawLine e = true) evs /\
    (length evs <= length rects)%nat /\
    (FLAGS_r fl = false -> evs = []) /\
    match r with
    | Val st' =>
        (FLAGS_r fl = true -> length evs = length rects) /\
        snd st <= snd st' <= snd st + Z.of_nat (length rects) /\
        (is_initialized text_recognition = false -> snd st' = snd st)
    | Throw e =>
        (is_initialized text_recognition = true /\ e = runtime_error mismatch_message) \/
        (e = cv_Exception (roi_error E) /\ FLAGS_cc fl = true /\
         roi_inside image (center_rect image) = false)
    | Undefined => True
    end.
Proof.
  revert st. induction rects as [|rect rects IH]; intros st.
  - exists [], (Val st). cbn [process_rects length]. repeat split; auto; lia.
  - cbn [process_rects].
    destruct (process_rect_cases E fl text_detection text_recognition kAlphabet image
                rect st) as (evs & r & -> & Hevs & Hr).
    assert (Hraw : Forall (fun e => is_RawLine e = true) evs /\ (length evs <= 1)%nat /\
                   (FLAGS_r fl = false -> evs = [])).
    { destruct Hevs as [->|[Hfr [line ->]]].
      - repeat split; auto; cbn; lia.
      - repeat split; [repeat constructor|cbn; lia|congruence]. }
    destruct Hraw as (Hraw1 & Hraw2 & Hraw3).
    rewrite bind_pair. destruct r as [st'|e|].
    + destruct (IH st') as (evs' & r' & -> & Hall & Hlen & Hnor & Hr').
      cbn [fst snd]. exists (evs ++ evs'), r'.
      split; [reflexivity|]. split; [now apply Forall_app|].
      split; [rewrite length_app; cbn [length]; lia|].
      split; [intros Hfr; rewrite (Hraw3 Hfr), (Hnor Hfr); reflexivity|].
      destruct Hr as (Hone & Hst & Hinit).
      destruct r' as [st''|e|]; [|exact Hr'|exact I].
      destruct Hr' as (Hcount & Hst' & Hinit').
      split; [|split].
      * intros Hfr. destruct (Hone Hfr) as [line ->].
        rewrite length_app, (Hcount Hfr). reflexivity.
      * cbn [length]. lia.
      * intros Hi. rewrite (Hinit' Hi), (Hinit Hi). reflexivity.
    + exists evs, (Throw e). split; [reflexivity|].
      split; [exact Hraw1|]. split; [cbn [length]; lia|]. split; [exact Hraw3|].
      apply Hr.
    + exists evs, Undefined. split; [reflexivity|].
      split; [exact Hraw1|]. split; [cbn [length]; lia|]. split; [exact Hraw3|exact I].
Qed.

(** X17.  The events of one frame are raw lines only, at most one for each
    rectangle and none without -r; when the frame is processed to its end
    under -r there is exactly one line for each rectangle. *)
Theorem process_frame_raw_lines (E : Collaborators) (fl : Flags)
    (text_detection : Cnn (BlobMap E)) (text_recognition : Cnn Blob)
    (kAlphabet : string) (image : Mat) :
  let r := process_frame E fl text_detection text_recognition kAlphabet image in
  let rects := frame_rects E fl text_detection image in
  Forall (fun e => is_RawLine e = true) (fst r) /\
  (length (fst r) <= length rects)%nat /\
  (FLAGS_r fl = false -> fst r = []) /\
  (FLAGS_r fl = true -> (exists st, snd r = Val st) -> length (fst r) = length rects).
Proof.
  intros r rects. subst r. unfold process_frame. fold rects.
  destruct (process_rects_cases E fl text_detection text_recognition kAlphabet image rects
              ([], if is_initialized text_recognition then 0
                   else static_cast_int (Z.of_nat (length rects))))
    as (evs & res & -> & Hall & Hlen & Hnor & Hres).
  cbn [fst snd]. repeat split; auto.
  intros Hfr [st Hst]. subst res. now apply Hres.
Qed.

Lemma process_frame_raw_lines_witness :
  let fl := demo_flags symbols36 in
  length (fst (process_frame demo fl (init_detector demo fl []) (init_recognizer demo fl)
                 (symbols36 ++ "#") (frame_image text_frame))) =
  length (frame_rects demo fl (init_detector demo fl []) (frame_image text_frame)).
Proof.
  intros fl.
  apply (proj2 (proj2 (proj2
           (process_frame_raw_lines demo fl (init_detector demo fl [])
              (init_recognizer demo fl) (symbols36 ++ "#") (frame_image text_frame))))).
  - reflexivity.
  - eexists. vm_compute. reflexivity.
Defined.


(** X18.  The number of regions found that is shown with a frame lies
    between 0 and the number of rectangles of the frame; without a
    recognizer it is the number of rectangles. *)
Theorem process_frame_num_found (E : Collaborators) (fl : Flags)
    (text_detection : Cnn (BlobMap E)) (text_recognition : Cnn Blob)
    (kAlphabet : string) (image : Mat) (drawn : list Annotation) (num_found : Z) :
  Z.of_nat (length (frame_rects E fl text_detection image)) < 2 ^ 31 ->
  snd (process_frame E fl text_detection text_recognition kAlphabet image) =
    Val (drawn, num_found) ->
  0 <= num_found <= Z.of_nat (length (frame_rects E fl text_detection image)) /\
  (is_initialized text_recognition = false ->
   num_found = Z.of_nat (length (frame_rects E fl text_detection image))).
Proof.
  intros Hlen. unfold process_frame.
  set (rects := frame_rects E fl text_detection image) in *.
  destruct (process_rects_cases E fl text_detection text_recognition kAlphabet image rects
              ([], if is_initialized text_recognition then 0
                   else static_cast_int (Z.of_nat (length rects))))
    as (evs & res & -> & _ & _ & _ & Hres).
  cbn [snd]. intros ->. cbn [snd] in Hres.
  destruct Hres as (_ & Hrange & Hinit).
  rewrite static_cast_int_small in * by lia.
  destruct (is_initialized text_recognition).
  - split; [lia|discriminate].
  - specialize (Hinit eq_refl). split; [lia|intros _; exact Hinit].
Qed.

Lemma process_frame_num_found_witness :
  0 <= 1 <= Z.of_nat (length (frame_rects demo (demo_flags symbols36)
                                (init_detector demo (demo_flags symbols36) [])
                                (frame_image text_frame))).
Proof.
  refine (proj1 (process_frame_num_found demo (demo_flags symbols36)
                   (init_detector demo (demo_flags symbols36) [])
                   (init_recognizer demo (demo_flags symbols36)) (symbols36 ++ "#")
                   (frame_image text_frame)
                   [DrawLine (pointf 30 35) (pointf 30 25);
                    DrawLine (pointf 30 25) (pointf 50 25);
                    DrawLine (pointf 50 25) (pointf 50 35);
                    DrawLine (pointf 50 35) (pointf 30 35);
                    DrawLabel "AB" (pointf 30 25)] 1 _ _)).
  - reflexivity.
  - vm_compute. reflexivity.
Defined.

(** ** The frame loop as a whole *)

Lemma process_frame_cases (E : Collaborators) (fl : Flags)
    (text_detection : Cnn (BlobMap E)) (text_recognition : Cnn Blob)
    (kAlphabet : string) (image : Mat) :
  exists evs r,
    process_frame E fl text_detection text_recognition kAlphabet image = (evs, r) /\
    Forall (fun e => is_RawLine e = true) evs /\
    (FLAGS_r fl = false -> evs = []) /\
    (forall e, r = Throw e ->
       (is_initialized text_recognition = true /\ e = runtime_error mismatch_message) \/
       (e = cv_Exception (roi_error E) /\ FLAGS_cc fl = true /\
        roi_inside image (center_rect image) = false)).
Proof.
  unfold process_frame.
  destruct (process_rects_cases E fl text_detection text_recognition kAlphabet image
              (frame_rects E fl text_detection image)
              ([], if is_initialized text_recognition then 0
                   else static_cast_int
                          (Z.of_nat (length (frame_rects E fl text_detection image)))))
    as (evs & r & -> & Hall & _ & Hnor & Hr).
  exists evs, r. split; [reflexivity|]. split; [exact Hall|]. split; [exact Hnor|].
  intros e0 ->. exact Hr.
Qed.

Lemma frame_loop_events (E : Collaborators) (fl : Flags)
    (text_detection : Cnn (BlobMap E)) (text_recognition : Cnn Blob)
    (kAlphabet : string) (frames : list Frame) :
  let r := frame_loop E fl text_detection text_recognition kAlphabet frames in
  Forall (fun e => (is_RawLine e = true /\ FLAGS_r fl = true) \/
                   (is_ShowFrame e = true /\ FLAGS_no_show fl = false)) (fst r) /\
  (forall e, snd r = Throw e ->
     (is_initialized text_recognition = true /\ e = runtime_error mismatch_message) \/
     (e = cv_Exception (roi_error E) /\ FLAGS_cc fl = true /\
      exists f, In f frames /\
                roi_inside (frame_image f) (center_rect (frame_image f)) = false)).
Proof.
  cbv zeta. induction frames as [|f rest IH]; cbn [frame_loop].
  - split; [constructor|discriminate].
  - destruct (Mat_empty (frame_image f)); [split; [constructor|discriminate]|].
    destruct (process_frame_cases E fl text_detection text_recognition kAlphabet
                (frame_image f)) as (evs & r & -> & Hall & Hnor & Hthrow).
    assert (Hevs : Forall (fun e => (is_RawLine e = true /\ FLAGS_r fl = true) \/
                                    (is_ShowFrame e = true /\ FLAGS_no_show fl = false))
                     evs).
    { destruct (FLAGS_r fl) eqn:Hfr; [|rewrite (Hnor eq_refl); constructor].
      apply Forall_forall. intros e He. left.
      rewrite Forall_forall in Hall. split; [now apply Hall|reflexivity]. }
    assert (Hrest : forall e,
              snd (frame_loop E fl text_detection text_recognition kAlphabet rest) =
                Throw e ->
              (is_initialized text_recognition = true /\
               e = runtime_error mismatch_message) \/
              (e = cv_Exception (roi_error E) /\ FLAGS_cc fl = true /\
               exists g, In g (f :: rest) /\
                 roi_inside (frame_image g) (center_rect (frame_image g)) = false)).
    { intros e He. destruct (proj2 IH e He) as [Hw|(Hc & Hcc & g & Hg & Hroi)];
        [now left|right].
      split; [exact Hc|]. split; [exact Hcc|]. exists g. split; [now right|exact Hroi]. }
    rewrite bind_pair. destruct r as [st|e|].
    + destruct IH as [IH1 _].
      destruct (FLAGS_no_show fl) eqn:Hns; cbn [negb].
      * cbn [fst snd]. split; [now apply Forall_app|exact Hrest].
      * unfold emit. rewrite bind_pair. cbn [fst snd].
        destruct (key_is_esc (frame_key f)); cbn [ret fst snd].
        -- split; [|discriminate]. apply Forall_app. split; [exact Hevs|].
           apply Forall_cons; [right; now split|apply Forall_nil].
        -- split; [|exact Hrest]. apply Forall_app. split; [exact Hevs|].
           first [ apply Forall_cons; [right; now split|exact IH1]
                 | apply Forall_app; split;
                   [apply Forall_cons; [right; now split|apply Forall_nil]|exact IH1] ].
    + cbn [fst snd]. split; [exact Hevs|]. intros e' He'. injection He' as <-.
      destruct (Hthrow e eq_refl) as [Hw|(Hc & Hcc & Hroi)]; [now left|right].
      split; [exact Hc|]. split; [exact Hcc|]. exists f. split; [now left|exact Hroi].
    + cbn [fst snd]. split; [exact Hevs|discriminate].
Qed.

(** X19.  The frame loop writes raw lines only under -r and shows frames
    only without -no_show; with -no_show and without -r it produces no
    event at all. *)
Theorem frame_loop_event_kinds (E : Collaborators) (fl : Flags)
    (text_detection : Cnn (BlobMap E)) (text_recognition : Cnn Blob)
    (kAlphabet : string) (frames : list Frame) :
  let trace := fst (frame_loop E fl text_detection text_recognition kAlphabet frames) in
  Forall (fun e => is_RawLine e = true \/ is_ShowFrame e = true) trace /\
  (FLAGS_r fl = false -> Forall (fun e => is_RawLine e = false) trace) /\
  (FLAGS_no_show fl = true -> Forall (fun e => is_ShowFrame e = false) trace) /\
  (FLAGS_r fl = false -> FLAGS_no_show fl = true -> trace = []).
Proof.
  intros trace.
  destruct (frame_loop_events E fl text_detection text_recognition kAlphabet frames)
    as [Hev _]. fold trace in Hev.
  rewrite Forall_forall in Hev.
  split; [|split; [|split]].
  - apply Forall_forall. intros e He. destruct (Hev e He) as [[H _]|[H _]]; auto.
  - intros Hfr. apply Forall_forall. intros e He.
    destruct (Hev e He) as [[_ H]|[H _]]; [congruence|].
    destruct e; cbn in *; congruence.
  - intros Hns. apply Forall_forall. intros e He.
    destruct (Hev e He) as [[H _]|[_ H]]; [|congruence].
    destruct e; cbn in *; congruence.
  - intros Hfr Hns. destruct trace as [|e trace']; [reflexivity|].
    destruct (Hev e (or_introl eq_refl)) as [[_ H]|[_ H]]; congruence.
Qed.

Lemma frame_loop_event_kinds_witness :
  let fl := mkFlags false "video.mp4" "d.xml" "r.xml" symbols36
                    (1 # 5) (4 # 5) (4 # 5) (-1) 1280 768 false false true in
  fst (frame_loop demo fl (init_detector demo fl []) (init_recognizer demo fl)
         (symbols36 ++ "#") [blank_frame; text_frame]) = [].
Proof.
  intros fl.
  apply (proj2 (proj2 (proj2
           (frame_loop_event_kinds demo fl (init_detector demo fl [])
              (init_recognizer demo fl) (symbols36 ++ "#") [blank_frame; text_frame])))).
  - reflexivity.
  - reflexivity.
Defined.


(** X20.  The frame loop raises two exceptions only: the runtime error of
    the width check, with an initialised recognizer, and the
    [cv::Exception] of the centre crop, under -cc on a frame whose window
    is not inside the image.  Without a recognizer and without -cc it
    raises nothing. *)
Theorem frame_loop_exceptions (E : Collaborators) (fl : Flags)
    (text_detection : Cnn (BlobMap E)) (text_recognition : Cnn Blob)
    (kAlphabet : string) (frames : list Frame) (e : exn) :
  snd (frame_loop E fl text_detection text_recognition kAlphabet frames) = Throw e ->
  (e = runtime_error mismatch_message /\ is_initialized text_recognition = true) \/
  (e = cv_Exception (roi_error E) /\ FLAGS_cc fl = true /\
   exists f, In f frames /\
             roi_inside (frame_image f) (center_rect (frame_image f)) = false).
Proof.
  intros He.
  destruct (frame_loop_events E fl text_detection text_recognition kAlphabet frames)
    as [_ Hthrow].
  destruct (Hthrow e He) as [[Hi Hw]|Hcv]; [left; now split|now right].
Qed.

Lemma frame_loop_exceptions_witness :
  (cv_Exception (roi_error demo) = runtime_error mismatch_message /\
   is_initialized (init_recognizer demo (demo_flags symbols36)) = true) \/
  (cv_Exception (roi_error demo) = cv_Exception (roi_error demo) /\
   true = true /\
   exists f, In f [mkFrame (mkMat 1000 10 []) (-1)] /\
             roi_inside (frame_image f) (center_rect (frame_image f)) = false).
Proof.
  apply (frame_loop_exceptions demo
           (mkFlags false "video.mp4" "" "r.xml" symbols36
                    (1 # 5) (4 # 5) (4 # 5) (-1) 1280 768 true true false)
           (Cnn_default []) (init_recognizer demo (demo_flags symbols36))
           (symbols36 ++ "#") [mkFrame (mkMat 1000 10 []) (-1)]
           (cv_Exception (roi_error demo))).
  vm_compute. reflexivity.
Defined.

(** X21.  Under -no_show the key codes are never read: two streams with
    the same images give the same run. *)
Theorem frame_loop_ignores_keys (E : Collaborators) (fl : Flags)
    (text_detection : Cnn (BlobMap E)) (text_recognition : Cnn Blob)
    (kAlphabet : string) (frames frames' : list Frame) :
  FLAGS_no_show fl = true ->
  map frame_image frames = map frame_image frames' ->
  frame_loop E fl text_detection text_recognition kAlphabet frames =
  frame_loop E fl text_detection text_recognition kAlphabet frames'.
Proof.
  intros Hns. revert frames'.
  induction frames as [|f rest IH]; intros [|f' rest'] Himg; try discriminate Himg.
  - reflexivity.
  - cbn [map] in Himg. injection Himg as Hf Hrest.
    cbn [frame_loop]. rewrite <- Hf.
    destruct (Mat_empty (frame_image f)); [reflexivity|].
    rewrite Hns. cbn [negb].
    destruct (process_frame E fl text_detection text_recognition kAlphabet (frame_image f))
      as [evs [st|e|]]; rewrite !bind_pair; [|reflexivity|reflexivity].
    now rewrite (IH rest' Hrest).
Qed.

Lemma frame_loop_ignores_keys_witness :
  let fl := mkFlags false "video.mp4" "d.xml" "r.xml" symbols36
                    (1 # 5) (4 # 5) (4 # 5) (-1) 1280 768 false true true in
  frame_loop demo fl (init_detector demo fl []) (init_recognizer demo fl)
    (symbols36 ++ "#") [mkFrame (mkMat 64 48 [255]) 27; blank_frame] =
  frame_loop demo fl (init_detector demo fl []) (init_recognizer demo fl)
    (symbols36 ++ "#") [text_frame; blank_frame].
Proof.
  intros fl.
  apply (frame_loop_ignores_keys demo fl (init_detector demo fl [])
           (init_recognizer demo fl) (symbols36 ++ "#")
           [mkFrame (mkMat 64 48 [255]) 27; blank_frame] [text_frame; blank_frame]).
  - reflexivity.
  - reflexivity.
Defined.

(** X22.  The loop ends at the first empty image and, when frames are
    shown, after the first frame shown while the escape key is down: the
    frames behind either of them have no influence on the run. *)
Theorem frame_loop_stops (E : Collaborators) (fl : Flags)
    (text_detection : Cnn (BlobMap E)) (text_recognition : Cnn Blob)
    (kAlphabet : string) (pre rest : list Frame) (f : Frame) :
  (Mat_empty (frame_image f) = true ->
   frame_loop E fl text_detection text_recognition kAlphabet (pre ++ f :: rest) =
   frame_loop E fl text_detection text_recognition kAlphabet pre) /\
  (FLAGS_no_show fl = false -> key_is_esc (frame_key f) = true ->
   frame_loop E fl text_detection text_recognition kAlphabet (pre ++ f :: rest) =
   frame_loop E fl text_detection text_recognition kAlphabet (pre ++ [f])).
Proof.
  split.
  - intros Hempty. induction pre as [|g pre IH]; cbn [app frame_loop].
    + now rewrite Hempty.
    + destruct (Mat_empty (frame_image g)); [reflexivity|].
      destruct (process_frame E fl text_detection text_recognition kAlphabet
                  (frame_image g)) as [evs [st|e|]];
        rewrite !bind_pair; [|reflexivity|reflexivity].
      destruct (negb (FLAGS_no_show fl)); [|now rewrite IH].
      unfold emit. rewrite !bind_pair.
      destruct (key_is_esc (frame_key g)); [reflexivity|now rewrite IH].
  - intros Hns Hesc. induction pre as [|g pre IH]; cbn [app frame_loop].
    + destruct (Mat_empty (frame_image f)); [reflexivity|].
      destruct (process_frame E fl text_detection text_recognition kAlphabet
                  (frame_image f)) as [evs [st|e|]];
        rewrite !bind_pair; [|reflexivity|reflexivity].
      rewrite Hns. cbn [negb]. unfold emit. rewrite !bind_pair, Hesc. reflexivity.
    + destruct (Mat_empty (frame_image g)); [reflexivity|].
      destruct (process_frame E fl text_detection text_recognition kAlphabet
                  (frame_image g)) as [evs [st|e|]];
        rewrite !bind_pair; [|reflexivity|reflexivity].
      destruct (negb (FLAGS_no_show fl)); [|now rewrite IH].
      unfold emit. rewrite !bind_pair.
      destruct (key_is_esc (frame_key g)); [reflexivity|now rewrite IH].
Qed.

Lemma frame_loop_stops_witness :
  let fl := demo_flags symbols36 in
  frame_loop demo fl (init_detector demo fl []) (init_recognizer demo fl)
    (symbols36 ++ "#") ([text_frame] ++ mkFrame (mkMat 0 0 []) (-1) :: [text_frame]) =
  frame_loop demo fl (init_detector demo fl []) (init_recognizer demo fl)
    (symbols36 ++ "#") [text_frame].
Proof.
  intros fl.
  apply (proj1 (frame_loop_stops demo fl (init_detector demo fl [])
                  (init_recognizer demo fl) (symbols36 ++ "#")
                  [text_frame] [text_frame] (mkFrame (mkMat 0 0 []) (-1)))).
  reflexivity.
Defined.


(** ** main before the loop, and the outline of a region *)

(** X23.  [main] writes a raw line or shows a frame only under a valid
    configuration: no -h, an input given, at least one of the two models
    given, and symbols without the pad symbol.  Under any other
    configuration no frame is processed. *)
Theorem main_output_needs_valid_flags (E : Collaborators) (fl : Flags)
    (dflt : BlobMap E) (frames : list Frame) (e : Event) :
  In e (fst (main E fl dflt frames)) ->
  e <> Usage ->
  FLAGS_h fl = false /\
  string_empty (FLAGS_i fl) = false /\
  (string_empty (FLAGS_m_td fl) = false \/ string_empty (FLAGS_m_tr fl) = false) /\
  ~ In kPadSymbol (list_ascii_of_string (FLAGS_m_tr_ss fl)).
Proof.
  unfold main, main_body, ParseAndCheckCommandLine, make_alphabet. cbn [fst].
  destruct (FLAGS_h fl).
  { cbn. intros [<-|[]] Hne. congruence. }
  destruct (string_empty (FLAGS_i fl)); [rewrite bind_throw; intros []|].
  destruct (string_empty (FLAGS_m_td fl)) eqn:Htd;
    destruct (string_empty (FLAGS_m_tr fl)) eqn:Htr; cbn [andb];
    try (rewrite bind_throw; intros []);
    rewrite bind_ret_l; cbn [negb];
    (destruct (string_contains kPadSymbol (FLAGS_m_tr_ss fl)) eqn:Hc;
     [rewrite bind_throw; intros []|]);
    intros _ _; repeat split; auto;
    intros Hin; apply string_contains_In in Hin; congruence.
Qed.

Lemma main_output_needs_valid_flags_witness :
  FLAGS_h (demo_flags symbols36) = false /\
  string_empty (FLAGS_i (demo_flags symbols36)) = false /\
  (string_empty (FLAGS_m_td (demo_flags symbols36)) = false \/
   string_empty (FLAGS_m_tr (demo_flags symbols36)) = false) /\
  ~ In kPadSymbol (list_ascii_of_string (FLAGS_m_tr_ss (demo_flags symbols36))).
Proof.
  apply (main_output_needs_valid_flags demo (demo_flags symbols36) []
           [blank_frame; text_frame] (ShowFrame [] 0)).
  - vm_compute. left. reflexivity.
  - discriminate.
Defined.

Lemma nth_rotate_1 (p : Point2f) (rest : list Point2f) (i : nat) :
  (i < S (length rest))%nat ->
  nth ((i + 1) mod S (length rest)) (p :: rest) origin = nth i (rest ++ [p]) origin.
Proof.
  intros Hi. destruct (Nat.eq_dec i (length rest)) as [->|Hne].
  - replace (length rest + 1)%nat with (S (length rest)) by lia.
    rewrite Nat.Div0.mod_same. rewrite nth_middle. reflexivity.
  - rewrite Nat.mod_small by lia. rewrite app_nth1 by lia.
    replace (i + 1)%nat with (S i) by lia. reflexivity.
Qed.

(** X24.  The outline of a region is a closed polygon through its points:
    it has one line for each point, the lines start at the points in
    order, and each line ends at the next point, the last line at the
    first point. *)
Theorem outline_closed_polygon (points : list Point2f) :
  length (outline points) = length points /\
  map line_start (outline points) = map Some points /\
  map line_end (outline points) = map Some (rotate 1 points).
Proof.
  unfold outline. split; [now rewrite length_map, length_seq|].
  rewrite !map_map. cbn [line_start line_end]. split.
  - rewrite <- (map_map (fun i => nth i points origin) Some).
    f_equal. apply (nth_ext _ _ origin origin).
    + now rewrite length_map, length_seq.
    + intros i Hi. rewrite length_map, length_seq in Hi.
      rewrite (nth_indep _ origin (nth 0 points origin))
        by (now rewrite length_map, length_seq).
      rewrite (map_nth (fun i => nth i points origin) (seq 0 (length points)) 0%nat i).
      now rewrite seq_nth.
  - rewrite <- (map_map (fun i => nth ((i + 1) mod length points) points origin) Some).
    f_equal. destruct points as [|p rest]; [reflexivity|].
    unfold rotate. cbn [skipn firstn].
    apply (nth_ext _ _ origin origin).
    + rewrite length_map, length_seq, length_app. cbn [length]. lia.
    + intros i Hi. rewrite length_map, length_seq in Hi.
      rewrite (nth_indep _ origin
                 (nth ((0 + 1) mod length (p :: rest)) (p :: rest) origin))
        by (now rewrite length_map, length_seq).
      rewrite (map_nth (fun i => nth ((i + 1) mod length (p :: rest)) (p :: rest) origin)
                 (seq 0 (length (p :: rest))) 0%nat i).
      rewrite seq_nth by exact Hi. cbn [Nat.add length].
      apply nth_rotate_1. exact Hi.
Qed.

(** ** A region whose text is rejected *)

(** X25.  When the recognizer is initialised and the confidence of a
    region is below the threshold, the region is still written under -r,
    with its coordinates and an empty string, but it is neither outlined
    nor labelled nor counted as found: only what the crop itself drew is
    added to the frame.  (Under -r the coordinates are converted to [int];
    where that conversion is undefined, so is the step.) *)
Theorem process_rect_rejected_text (E : Collaborators) (fl : Flags)
    (text_detection : Cnn (BlobMap E)) (text_recognition : Cnn Blob)
    (kAlphabet : string) (image : Mat) (rect : RotatedRect)
    (st : list Annotation * Z)
    (cropped_text : Mat) (points : list Point2f) (idx : Z) (drawn : list Annotation)
    (shape0 : Z) (s : string) (c : Q) :
  is_initialized text_recognition = true ->
  crop_stage E fl text_detection text_recognition image rect =
    ret (cropped_text, points, idx, drawn) ->
  let blob := Infer text_recognition cropped_text in
  vec_at (getDims blob) 2 = Some (Z.of_nat (String.length kAlphabet)) ->
  vec_at (getDims blob) 0 = Some shape0 ->
  CTCGreedyDecoder E
    (firstn (Z.to_nat (shape0 * Z.of_nat (String.length kAlphabet))) (buffer blob))
    kAlphabet kPadSymbol = (s, c) ->
  (c < FLAGS_thr fl)%Q ->
  process_rect E fl text_detection text_recognition kAlphabet image rect st =
    if FLAGS_r fl then
      match raw_coords image points with
      | Some coords =>
          ([RawLine (coords ++ "," ++ endl)], Val (fst st ++ drawn, snd st))
      | None => ([], Undefined)
      end
    else ([], Val (fst st ++ drawn, snd st)).
Proof.
  intros Hinit Hcrop blob Hwidth Hsteps Hdec Hlt.
  assert (Hle : Qle_bool (FLAGS_thr fl) c = false).
  { destruct (Qle_bool (FLAGS_thr fl) c) eqn:Hle; [|reflexivity].
    apply Qle_bool_iff in Hle. apply Qlt_not_le in Hlt. contradiction. }
  assert (Hrec : recognition_stage E fl text_recognition kAlphabet cropped_text (snd st) =
                 ret (EmptyString, c, snd st + 0)).
  { unfold recognition_stage. rewrite Hinit. fold blob.
    rewrite Hwidth, Z.eqb_refl. cbn [negb]. rewrite Hsteps, Hdec, Hle. reflexivity. }
  assert (Hann : annotate_stage fl text_recognition points idx EmptyString = ret []).
  { unfold annotate_stage. rewrite Hinit.
    cbn [string_empty negb orb]. now rewrite andb_false_r. }
  unfold process_rect. rewrite Hcrop, bind_ret_l, Hrec, bind_ret_l.
  unfold raw_line. rewrite Hinit, Hann.
  destruct (FLAGS_r fl).
  - destruct (raw_coords image points) as [coords|].
    + unfold emit. rewrite bind_pair, bind_ret_l. cbn [ret fst snd app].
      rewrite !app_nil_r, Z.add_0_r. reflexivity.
    + rewrite bind_undefined. reflexivity.
  - unfold emit. rewrite bind_pair, bind_ret_l. cbn [ret fst snd app].
    rewrite !app_nil_r, Z.add_0_r. reflexivity.
Qed.

Lemma process_rect_rejected_text_witness :
  let fl := mkFlags false "video.mp4" "d.xml" "r.xml" symbols36
                    (3 # 5) (4 # 5) (4 # 5) (-1) 1280 768 false true false in
  process_rect demo fl (init_detector demo fl []) (init_recognizer demo fl)
    (symbols36 ++ "#") (mkMat 64 48 [255]) (upright 40 30 20 10) ([], 0) =
  ([RawLine ("30,35,30,25,50,25,50,35," ++ endl)], Val ([], 0)).
Proof.
  intros fl.
  apply (process_rect_rejected_text demo fl (init_detector demo fl [])
           (init_recognizer demo fl) (symbols36 ++ "#") (mkMat 64 48 [255])
           (upright 40 30 20 10) ([], 0) (mkMat 120 32 [])
           [pointf 30 35; pointf 30 25; pointf 50 25; pointf 50 35] 1 [] 30 "AB" (1 # 2)%Q).
  - reflexivity.
  - vm_compute. reflexivity.
  - reflexivity.
  - reflexivity.
  - reflexivity.
  - reflexivity.
Defined.
